(** * rpc/ws.go: the websocket subscription client

    A shallow embedding of [WSClient] and [Subscription] from
    [rpc/ws.go], with the registry invariants and the behaviour of the
    reader loop, of [Recv] and of [Unsubscribe].

    Modelling conventions.
    - [uint64] values are [Z]; the conversion [uint64(x)] of an [int64] is
      written out as a reduction modulo [2^64].
    - The two Go maps are [gmap Z ptr]; a [*Subscription] is an index into
      the list [heap] of Subscription objects, so that the same object can
      sit in both maps and be updated through either.
    - A buffered channel is its buffer plus its capacity.  A send on a full
      channel and a receive on an empty one do not return: the operation
      ends in [Blocked].
    - A nil-pointer dereference ends the operation in [Panic].
    - Every method runs as one atomic step (the registry lock is not
      modelled); calls of different goroutines are interleaved as a
      sequence of such steps.
    - [zlog] calls have no effect on the client and are left out.
    - [encoding/json], [gjson], [math/rand] and the websocket connection
      are external: the JSON codec is the class [Codec], a received frame
      is what the parsers report about it, the random source and the
      connection are fields of the client state. *)

From stdpp Require Import gmap strings list fin_maps.
From Stdlib Require Import ZArith Lia.

Local Open Scope Z_scope.

(** ** Errors *)

Inductive fmt_arg :=
  | ArgD (n : Z)
  | ArgS (s : string).

(** Go [error] values.  [Errorf] is [fmt.Errorf] with [%d]/[%s] verbs,
    [Wrapf] is [fmt.Errorf] with a trailing [%w]. *)
Inductive error :=
  | ErrExternal (msg : string)
  | Json2Error (code : Z) (message : string)
  | ErrNullResult
  | Errorf (format : string) (args : list fmt_arg)
  | Wrapf (format : string) (inner : error).

(** [json2.E_SERVER] *)
Definition E_SERVER : Z := -32000.

(** ** Outcomes of a call *)

Inductive wait :=
  | WaitSend      (* a send on a full channel *)
  | WaitRecv      (* a select with no ready case *)
  | WaitRead.     (* ReadMessage with no inbound traffic *)

Inductive outcome (A : Type) :=
  | Done (a : A)
  | Panic
  | Blocked (w : wait).
Arguments Done {A} a.
Arguments Panic {A}.
Arguments Blocked {A} w.

Definition obind {A B} (m : outcome A) (k : A -> outcome B) : outcome B :=
  match m with
  | Done a => k a
  | Panic => Panic
  | Blocked w => Blocked w
  end.

Notation "x <-- m ;; k" := (obind m (fun x => k))
  (at level 100, m at next level, right associativity).

(** ** Buffered channels *)

Record chan (A : Type) := make_chan { buf : list A; cap : nat }.
Arguments make_chan {A} buf cap.
Arguments buf {A} c.
Arguments cap {A} c.

Definition len {A} (c : chan A) : nat := length (buf c).

(** [c <- x]: [None] when the buffer is full (the sender would wait). *)
Definition send {A} (c : chan A) (x : A) : option (chan A) :=
  if decide (cap c <= len c)%nat then None
  else Some (make_chan (buf c ++ [x]) (cap c)).

(** [<-c]: [None] when the buffer is empty. *)
Definition recv {A} (c : chan A) : option (A * chan A) :=
  match buf c with
  | [] => None
  | x :: rest => Some (x, make_chan rest (cap c))
  end.

(** ** Requests *)

Inductive param :=
  | PString (s : string)
  | PUint64 (n : Z)
  | PMap (m : gmap string string).

Record clientRequest := {
  Version : string;
  Method : string;
  Params : list param;
  ID : Z
}.

Abbreviation data := string.
Abbreviation RawMessage := string.

(** ** The JSON codec *)

Class Codec := {
  (** decoded notification payloads *)
  value : Type;
  (** [reflect.Type] descriptors *)
  reflect_Type : Type;
  (** [json.Marshal] of a request *)
  json_Marshal : clientRequest -> error + data;
  (** [json.Unmarshal] of a payload into a fresh value of the given type *)
  json_Unmarshal : reflect_Type -> RawMessage -> error + value;
  (** [json.Unmarshal] of an error payload into a [json2.Error] *)
  json2_Unmarshal : RawMessage -> option (Z * string)
}.

(** ** Inbound frames *)

Record wsClientResponseParams := {
  Result : option RawMessage;
  Subscription_field : Z
}.

Record wsClientResponse := {
  resp_Params : option wsClientResponseParams;
  resp_Error : option RawMessage
}.

(** A received frame, as the code observes it: the three [gjson] lookups
    of [handleMessage] ([Exists]/[Int] of ["id"], [Int] of ["result"] and
    of ["params.subscription"]; [Int] of an absent member is 0) and the
    outcome of [json.NewDecoder(r).Decode(&c)] in [decodeClientResponse]
    (an error, or the pointer [c], nil when the document is [null]). *)
Record message := {
  gj_id : option Z;
  gj_result : Z;
  gj_params_subscription : Z;
  json_Decode : error + option wsClientResponse
}.

Definition uint64 (x : Z) : Z := x mod 2 ^ 64.

(** ** The connection *)

(** [written]: the frames sent so far; [broken]: the error every write
    fails with once the link is down. *)
Record Conn := {
  written : list data;
  broken : option error
}.

Definition WriteMessage (d : data) (c : Conn) : Conn * option error :=
  match broken c with
  | Some e => (c, Some e)
  | None => ({| written := written c ++ [d]; broken := None |}, None)
  end.

(** What [conn.ReadMessage] returns. *)
Inductive read :=
  | ReadMsg (m : message)
  | ReadErr (e : error).

Abbreviation ptr := nat.

Section Client.
Context `{Codec}.

(** [interface{}] holding a decoded value, or nil *)
Definition result : Type := option value.

(** ** Subscription *)

(** [closeFunc] is the closure [func(err) { c.closeSubscription(req.ID, err) }];
    it is the definition [closeFunc] below. *)
Record Subscription := {
  req : clientRequest;
  subID : Z;
  stream : chan result;
  err : chan (option error);
  reflectType : reflect_Type;
  unsubscriptionMethod : string
}.

Definition newSubscription (req : clientRequest) (reflectType : reflect_Type)
  : Subscription :=
  {| req := req;
     subID := 0;
     stream := make_chan [] 200;
     err := make_chan [] 1;
     reflectType := reflectType;
     unsubscriptionMethod := "" |}.

Definition set_subID (s : Subscription) (n : Z) : Subscription :=
  {| req := req s; subID := n; stream := stream s; err := err s;
     reflectType := reflectType s;
     unsubscriptionMethod := unsubscriptionMethod s |}.

Definition set_stream (s : Subscription) (ch : chan result) : Subscription :=
  {| req := req s; subID := subID s; stream := ch; err := err s;
     reflectType := reflectType s;
     unsubscriptionMethod := unsubscriptionMethod s |}.

Definition set_err (s : Subscription) (ch : chan (option error)) : Subscription :=
  {| req := req s; subID := subID s; stream := stream s; err := ch;
     reflectType := reflectType s;
     unsubscriptionMethod := unsubscriptionMethod s |}.

(** ** WSClient *)

(** The client with the objects it points to: [heap] holds the
    Subscription objects, [rand_src]/[rand_pos] the state of [math/rand]. *)
Record WSClient := {
  rpcURL : string;
  conn : Conn;
  subscriptionByRequestID : gmap Z ptr;
  subscriptionByWSSubID : gmap Z ptr;
  reconnectOnErr : bool;
  heap : list Subscription;
  rand_src : nat -> Z;
  rand_pos : nat
}.

Definition set_conn (c : WSClient) (k : Conn) : WSClient :=
  {| rpcURL := rpcURL c; conn := k;
     subscriptionByRequestID := subscriptionByRequestID c;
     subscriptionByWSSubID := subscriptionByWSSubID c;
     reconnectOnErr := reconnectOnErr c; heap := heap c;
     rand_src := rand_src c; rand_pos := rand_pos c |}.

Definition set_maps (c : WSClient) (byReq bySub : gmap Z ptr) : WSClient :=
  {| rpcURL := rpcURL c; conn := conn c;
     subscriptionByRequestID := byReq;
     subscriptionByWSSubID := bySub;
     reconnectOnErr := reconnectOnErr c; heap := heap c;
     rand_src := rand_src c; rand_pos := rand_pos c |}.

Definition set_heap (c : WSClient) (h : list Subscription) : WSClient :=
  {| rpcURL := rpcURL c; conn := conn c;
     subscriptionByRequestID := subscriptionByRequestID c;
     subscriptionByWSSubID := subscriptionByWSSubID c;
     reconnectOnErr := reconnectOnErr c; heap := h;
     rand_src := rand_src c; rand_pos := rand_pos c |}.

Definition set_rand_pos (c : WSClient) (n : nat) : WSClient :=
  {| rpcURL := rpcURL c; conn := conn c;
     subscriptionByRequestID := subscriptionByRequestID c;
     subscriptionByWSSubID := subscriptionByWSSubID c;
     reconnectOnErr := reconnectOnErr c; heap := heap c;
     rand_src := rand_src c; rand_pos := n |}.

(** [rand.Int63()]: the next draw, in [0, 2^63). *)
Definition Int63 (c : WSClient) : Z * WSClient :=
  (rand_src c (rand_pos c) mod 2 ^ 63, set_rand_pos c (S (rand_pos c))).

(** The client after a successful dial on a fresh connection. *)
Definition Dial (rpcURL : string) (rnd : nat -> Z) : WSClient :=
  {| rpcURL := rpcURL;
     conn := {| written := []; broken := None |};
     subscriptionByRequestID := ∅;
     subscriptionByWSSubID := ∅;
     reconnectOnErr := false;
     heap := [];
     rand_src := rnd;
     rand_pos := 0 |}.

Definition newClientRequest (params : list param) (method : string)
    (configuration : gmap string string) (c : WSClient)
  : clientRequest * WSClient :=
  let '(id, c') := Int63 c in
  ({| Version := "2.0";
      Method := method;
      Params := params ++ [PMap configuration];
      ID := uint64 id |}, c').

Definition encode (r : clientRequest) : error + data :=
  match json_Marshal r with
  | inl e => inl (Wrapf "encode request: json marshall: %w" e)
  | inr d => inr d
  end.

Inductive decoded :=
  | DecOk (v : value)
  | DecErr (e : error)
  | DecPanic.

Definition decodeClientResponse (m : message) (ty : reflect_Type) : decoded :=
  match json_Decode m with
  | inl e => DecErr e
  | inr None => DecPanic                        (* c.Error on a nil c *)
  | inr (Some c) =>
    match resp_Error c with
    | Some raw =>
      match json2_Unmarshal raw with
      | None => DecErr (Json2Error E_SERVER raw)
      | Some (code, msg) => DecErr (Json2Error code msg)
      end
    | None =>
      match resp_Params c with
      | None => DecErr ErrNullResult
      | Some ps =>
        match Result ps with
        | None => DecPanic                      (* *c.Params.Result on nil *)
        | Some raw =>
          match json_Unmarshal ty raw with
          | inl e => DecErr e
          | inr v => DecOk v
          end
        end
      end
    end
  end.

Definition rpcUnsubscribe (subID : Z) (method : string) (c : WSClient)
  : option error * WSClient :=
  let '(r, c1) := newClientRequest [PUint64 subID] method ∅ c in
  match encode r with
  | inl _ =>
    (Some (Errorf "unable to encode unsubscription message for subID %d and method %s"
                  [ArgD subID; ArgS method]), c1)
  | inr d =>
    let '(k, e) := WriteMessage d (conn c1) in
    match e with
    | Some _ =>
      (Some (Errorf "unable to send unsubscription message for subID %d and method %s"
                    [ArgD subID; ArgS method]), set_conn c1 k)
    | None => (None, set_conn c1 k)
    end
  end.

Definition closeSubscription (reqID : Z) (e : option error) (c : WSClient)
  : outcome WSClient :=
  match subscriptionByRequestID c !! reqID with
  | None => Done c
  | Some p =>
    match heap c !! p with
    | None => Panic
    | Some sub =>
      match send (err sub) e with
      | None => Blocked WaitSend
      | Some ch =>
        let c1 := set_heap c (<[p := set_err sub ch]> (heap c)) in
        let '(_, c2) := rpcUnsubscribe (subID sub) (unsubscriptionMethod sub) c1 in
        Done (set_maps c2
                (delete (ID (req sub)) (subscriptionByRequestID c2))
                (delete (subID sub) (subscriptionByWSSubID c2)))
      end
    end
  end.

(** A missing key yields the nil pointer, and [callBack.subID = subID]
    dereferences it. *)
Definition handleNewSubscriptionMessage (requestID subID : Z) (c : WSClient)
  : outcome WSClient :=
  match subscriptionByRequestID c !! requestID with
  | None => Panic
  | Some p =>
    match heap c !! p with
    | None => Panic
    | Some callBack =>
      Done (set_maps (set_heap c (<[p := set_subID callBack subID]> (heap c)))
              (subscriptionByRequestID c)
              (<[subID := p]> (subscriptionByWSSubID c)))
    end
  end.

Definition handleSubscriptionMessage (subID : Z) (m : message) (c : WSClient)
  : outcome WSClient :=
  match subscriptionByWSSubID c !! subID with
  | None => Done c
  | Some p =>
    match heap c !! p with
    | None => Panic
    | Some sub =>
      match decodeClientResponse m (reflectType sub) with
      | DecPanic => Panic
      | DecErr e =>
        closeSubscription (ID (req sub))
          (Some (Wrapf "unable to decode client response: %w" e)) c
      | DecOk v =>
        if decide (cap (stream sub) <= len (stream sub))%nat then
          closeSubscription (ID (req sub))
            (Some (Errorf "reached channel max capacity %d"
                          [ArgD (Z.of_nat (len (stream sub)))])) c
        else
          match send (stream sub) (Some v) with
          | None => Blocked WaitSend
          | Some ch => Done (set_heap c (<[p := set_stream sub ch]> (heap c)))
          end
      end
    end
  end.

Definition handleMessage (m : message) (c : WSClient) : outcome WSClient :=
  match gj_id m with
  | Some i =>
    handleNewSubscriptionMessage (uint64 i) (uint64 (gj_result m)) c
  | None =>
    handleSubscriptionMessage (uint64 (gj_params_subscription m)) m c
  end.

(** [sub.err <- err] for the Subscriptions of [order], one after the
    other. *)
Fixpoint push_err_all (order : list (Z * ptr)) (e : error)
    (h : list Subscription) : outcome (list Subscription) :=
  match order with
  | [] => Done h
  | (_, p) :: rest =>
    match h !! p with
    | None => Panic
    | Some sub =>
      match send (err sub) (Some e) with
      | None => Blocked WaitSend
      | Some ch => push_err_all rest e (<[p := set_err sub ch]> h)
      end
    end
  end.

(** [closeAllSubscription] when the [range] over the map visits its
    entries in the given order (Go leaves the order unspecified). *)
Definition closeAllSubscription_in (order : list (Z * ptr)) (e : error)
    (c : WSClient) : outcome WSClient :=
  h <-- push_err_all order e (heap c) ;;
  Done (set_maps (set_heap c h) ∅ ∅).

Definition closeAllSubscription (e : error) (c : WSClient) : outcome WSClient :=
  closeAllSubscription_in (map_to_list (subscriptionByRequestID c)) e c.

(** The reader loop over the sequence of results of [conn.ReadMessage]. *)
Fixpoint receiveMessages (inbound : list read) (c : WSClient)
  : outcome WSClient :=
  match inbound with
  | [] => Blocked WaitRead
  | ReadErr e :: _ => closeAllSubscription e c
  | ReadMsg m :: rest =>
    c' <-- handleMessage m c ;; receiveMessages rest c'
  end.

(** Which case a [select] takes when both are ready. *)
Inductive pick := PickStream | PickErr.

Definition Recv (p : ptr) (ch : pick) (c : WSClient)
  : outcome (WSClient * (result * option error)) :=
  match heap c !! p with
  | None => Panic
  | Some s =>
    let from_stream :=
      match recv (stream s) with
      | Some (d, rest) =>
        Some (set_heap c (<[p := set_stream s rest]> (heap c)), (d, None))
      | None => None
      end in
    let from_err :=
      match recv (err s) with
      | Some (e, rest) =>
        Some (set_heap c (<[p := set_err s rest]> (heap c)), (None, e))
      | None => None
      end in
    match from_stream, from_err with
    | None, None => Blocked WaitRecv
    | Some r, None => Done r
    | None, Some r => Done r
    | Some r1, Some r2 =>
      match ch with PickStream => Done r1 | PickErr => Done r2 end
    end
  end.

Definition closeFunc (s : Subscription) (e : option error) (c : WSClient)
  : outcome WSClient :=
  closeSubscription (ID (req s)) e c.

Definition unsubscribe (p : ptr) (e : option error) (c : WSClient)
  : outcome WSClient :=
  match heap c !! p with
  | None => Panic
  | Some s => closeFunc s e c
  end.

Definition Unsubscribe (p : ptr) (c : WSClient) : outcome WSClient :=
  unsubscribe p None c.

Definition subscribe (params : list param)
    (subscriptionMethod unsubscriptionMethod : string) (commitment : string)
    (resultType : reflect_Type) (c : WSClient)
  : WSClient * (ptr + error) :=
  let conf : gmap string string := {[ "encoding" := "jsonParsed" ]} in
  let conf :=
    if decide (commitment = "") then conf
    else <[ "commitment" := commitment ]> conf in
  let '(r, c1) := newClientRequest params subscriptionMethod conf c in
  match encode r with
  | inl e =>
    (c1, inr (Wrapf "subscribe: unable to encode subsciption request: %w" e))
  | inr d =>
    let sub := newSubscription r resultType in
    let p := length (heap c1) in
    let c2 :=
      set_maps (set_heap c1 (heap c1 ++ [sub]))
        (<[ID r := p]> (subscriptionByRequestID c1))
        (subscriptionByWSSubID c1) in
    let '(k, e) := WriteMessage d (conn c2) in
    match e with
    | Some e => (set_conn c2 k, inr (Wrapf "unable to write request: %w" e))
    | None => (set_conn c2 k, inl p)
    end
  end.

Definition ProgramSubscribe (programID : string) (commitment : string)
    (ProgramWSResult : reflect_Type) (c : WSClient) : WSClient * (ptr + error) :=
  subscribe [PString programID] "programSubscribe" "programUnsubscribe"
    commitment ProgramWSResult c.

End Client.

(** ** Calls and runs *)

Section Runs.
Context `{Codec}.

(** The calls that goroutines make on one client: the façade
    ([subscribe], [Recv], [Unsubscribe]), the reader loop handling one
    frame or one read error, and [closeSubscription] itself. *)
Inductive call :=
  | CallSubscribe (params : list param)
      (subscriptionMethod unsubscriptionMethod commitment : string)
      (resultType : reflect_Type)
  | CallHandleMessage (m : message)
  | CallCloseSubscription (reqID : Z) (e : option error)
  | CallCloseAllSubscription (e : error)
  | CallRecv (p : ptr) (ch : pick)
  | CallUnsubscribe (p : ptr).

Definition step (a : call) (c : WSClient) : outcome WSClient :=
  match a with
  | CallSubscribe ps sm um cm ty => Done (subscribe ps sm um cm ty c).1
  | CallHandleMessage m => handleMessage m c
  | CallCloseSubscription reqID e => closeSubscription reqID e c
  | CallCloseAllSubscription e => closeAllSubscription e c
  | CallRecv p ch => r <-- Recv p ch c ;; Done r.1
  | CallUnsubscribe p => Unsubscribe p c
  end.

Definition not_subscribe (a : call) : Prop :=
  match a with CallSubscribe _ _ _ _ _ => False | _ => True end.

Fixpoint run (calls : list call) (c : WSClient) : outcome WSClient :=
  match calls with
  | [] => Done c
  | a :: rest => c' <-- step a c ;; run rest c'
  end.

(** The frames of a list handled one after the other, as the reader loop
    does between two reads. *)
Fixpoint handleMessages (ms : list message) (c : WSClient) : outcome WSClient :=
  match ms with
  | [] => Done c
  | m :: rest => c' <-- handleMessage m c ;; handleMessages rest c'
  end.

(** Successive [Recv] calls on one Subscription, one per element of
    [picks]; the pairs returned, up to the first call that does not
    return. *)
Fixpoint RecvN (p : ptr) (picks : list pick) (c : WSClient)
  : list (result * option error) :=
  match picks with
  | [] => []
  | ch :: rest =>
    match Recv p ch c with
    | Done (c', r) => r :: RecvN p rest c'
    | _ => []
    end
  end.

(** The reader loop and the consumer of Subscription [p] taking turns:
    a frame is handled, or the consumer calls [Recv].  The pairs the
    consumer got are collected in order. *)
Inductive event :=
  | EvFrame (m : message)
  | EvRecv (ch : pick).

Fixpoint play (p : ptr) (evs : list event) (c : WSClient)
  : outcome (WSClient * list (result * option error)) :=
  match evs with
  | [] => Done (c, [])
  | EvFrame m :: rest => c' <-- handleMessage m c ;; play p rest c'
  | EvRecv ch :: rest =>
    r <-- Recv p ch c ;;
    t <-- play p rest r.1 ;;
    Done (t.1, r.2 :: t.2)
  end.

(** The payloads of the frames of [evs], decoded for type [ty], in order. *)
Fixpoint payloads (ty : reflect_Type) (evs : list event) : list value :=
  match evs with
  | [] => []
  | EvFrame m :: rest =>
    match decodeClientResponse m ty with
    | DecOk v => v :: payloads ty rest
    | _ => payloads ty rest
    end
  | EvRecv _ :: rest => payloads ty rest
  end.

Fixpoint frames_of (evs : list event) : list message :=
  match evs with
  | [] => []
  | EvFrame m :: rest => m :: frames_of rest
  | EvRecv _ :: rest => frames_of rest
  end.

(** The configuration map [subscribe] appends to the params, and the
    request it builds from the next draw of the random source. *)
Definition subscribe_conf (commitment : string) : gmap string string :=
  if decide (commitment = "") then {[ "encoding" := "jsonParsed" ]}
  else <[ "commitment" := commitment ]> {[ "encoding" := "jsonParsed" ]}.

Definition subscribe_request (params : list param) (subscriptionMethod : string)
    (commitment : string) (c : WSClient) : clientRequest :=
  (newClientRequest params subscriptionMethod (subscribe_conf commitment) c).1.

(** ** The registry invariant *)

(** Every entry of the request-id index is a Subscription object with
    that request id whose error slot has not been written; the entries of
    the subscription-id index point to objects; the channels are the ones
    [newSubscription] makes. *)
Record wf (c : WSClient) : Prop := {
  wf_req : forall k p, subscriptionByRequestID c !! k = Some p ->
    exists s, heap c !! p = Some s /\ ID (req s) = k /\ buf (err s) = [];
  wf_sub : forall k p, subscriptionByWSSubID c !! k = Some p ->
    is_Some (heap c !! p);
  wf_chan : forall p s, heap c !! p = Some s ->
    cap (stream s) = 200%nat /\ cap (err s) = 1%nat /\
    (len (stream s) <= 200)%nat /\ (len (err s) <= 1)%nat
}.

(** A Subscription is live when the request-id index holds it under its
    own request id. *)
Definition live (p : ptr) (c : WSClient) : Prop :=
  exists s, heap c !! p = Some s /\
            subscriptionByRequestID c !! ID (req s) = Some p.

Definition in_pending (p : ptr) (c : WSClient) : Prop :=
  exists k, subscriptionByRequestID c !! k = Some p.

Definition in_active (p : ptr) (c : WSClient) : Prop :=
  exists k, subscriptionByWSSubID c !! k = Some p.

(** The error slot of [p] holds exactly [e]. *)
Definition err_slot_is (p : ptr) (e : option error) (c : WSClient) : Prop :=
  exists s, heap c !! p = Some s /\ buf (err s) = [e].

(** The spec's reading of the two indices: once acknowledged, a
    Subscription is in the active index only. *)
Definition spec_indices_exclusive (c0 : WSClient) : Prop :=
  forall calls c p, run calls c0 = Done c ->
    ~ (in_pending p c /\ in_active p c).

(** The spec's reading of [receive()]: an error once returned is
    returned by every later call. *)
Definition spec_error_sticky (c : WSClient) (p : ptr) : Prop :=
  forall ch c1 r e, Recv p ch c = Done (c1, (r, Some e)) ->
    forall ch', exists c2, Recv p ch' c1 = Done (c2, (None, Some e)).

End Runs.

(** ** Frames of the wire format *)

(** [{"jsonrpc":"2.0","result":<result>,"id":<id>}] *)
Definition ack_frame (id result : Z) : message :=
  {| gj_id := Some id; gj_result := result; gj_params_subscription := 0;
     json_Decode := inr (Some {| resp_Params := None; resp_Error := None |}) |}.

(** [{"jsonrpc":"2.0","params":{"subscription":<s>,"result":<payload>}}] *)
Definition notification_frame (s : Z) (payload : RawMessage) : message :=
  {| gj_id := None; gj_result := 0; gj_params_subscription := s;
     json_Decode :=
       inr (Some {| resp_Params :=
                      Some {| Result := Some payload; Subscription_field := s |};
                    resp_Error := None |}) |}.

(** [{"jsonrpc":"2.0","error":<payload>,"id":<id>}], and the same without
    an ["id"] member when [id] is [None]. *)
Definition error_frame (id : option Z) (payload : RawMessage) : message :=
  {| gj_id := id; gj_result := 0; gj_params_subscription := 0;
     json_Decode :=
       inr (Some {| resp_Params := None; resp_Error := Some payload |}) |}.

(** ** A concrete codec and concrete clients *)

(** Payloads are decoded to themselves, the empty payload is rejected;
    a request is encoded as its method name; every error payload decodes
    to the same [json2.Error]. *)
Definition text_codec : Codec :=
  {| value := string;
     reflect_Type := unit;
     json_Marshal := fun r => inr (Method r);
     json_Unmarshal := fun _ raw =>
       if decide (raw = "") then inl (ErrExternal "unexpected end of JSON input")
       else inr raw;
     json2_Unmarshal := fun _ => Some (E_SERVER, "server error") |}.

(** A client whose draws from [math/rand] are 5, 6, 7, ... *)
Definition client0 : @WSClient text_codec :=
  @Dial text_codec "ws://localhost" (fun n => 5 + Z.of_nat n).

(** [client0] after one [ProgramSubscribe]: request id 5, object 0. *)
Definition client1 : @WSClient text_codec :=
  (@ProgramSubscribe text_codec "ProgramX" "" tt client0).1.

(** [client0] with the link down. *)
Definition client0_down : @WSClient text_codec :=
  @set_conn text_codec client0
    {| written := []; broken := Some (ErrExternal "broken pipe") |}.

(** A live, acknowledged Subscription (request id 5, subscription id 77)
    whose delivery pipe holds [n] results. *)
Definition client_with_pipe (n : nat) : @WSClient text_codec :=
  {| rpcURL := "ws://localhost";
     conn := {| written := []; broken := None |};
     subscriptionByRequestID := {[ 5 := 0%nat ]};
     subscriptionByWSSubID := {[ 77 := 0%nat ]};
     reconnectOnErr := false;
     heap := [ {| req := {| Version := "2.0"; Method := "programSubscribe";
                            Params := []; ID := 5 |};
                  subID := 77;
                  stream := make_chan (replicate n (Some "x" : @result text_codec)) 200;
                  err := make_chan [] 1;
                  reflectType := tt;
                  unsubscriptionMethod := "" |} ];
     rand_src := fun n => 5 + Z.of_nat n;
     rand_pos := 1 |}.

(** [client1] after the acknowledgement [{"result":77,"id":5}]. *)
Definition client1_acked : @WSClient text_codec :=
  match @handleMessage text_codec (ack_frame 5 77) client1 with
  | Done c => c
  | _ => client1
  end.

(** [client1] after the reader loop has seen the read error [EOF]. *)
Definition client1_failed : @WSClient text_codec :=
  match @closeAllSubscription text_codec (ErrExternal "EOF") client1 with
  | Done c => c
  | _ => client1
  end.

(** [client1_failed] after one [Recv] on its Subscription. *)
Definition client1_drained : @WSClient text_codec :=
  match @Recv text_codec 0%nat PickErr client1_failed with
  | Done (c, _) => c
  | _ => client1_failed
  end.

(** [client1] after the server has answered the subscribe request with
    the error frame [{"error":{...},"id":5}]. *)
Definition client1_rejected : @WSClient text_codec :=
  match @handleMessage text_codec
          (error_frame (Some 5) "{code:-32602,message:Invalid params}") client1 with
  | Done c => c
  | _ => client1
  end.

(** The object [subscribe] creates in [client0], and the same after the
    acknowledgement assigning subscription id 77. *)
Definition sub0 : @Subscription text_codec :=
  @newSubscription text_codec
    {| Version := "2.0"; Method := "programSubscribe";
       Params := [PString "ProgramX"; PMap {[ "encoding" := "jsonParsed" ]}];
       ID := 5 |} tt.

Definition sub0_acked : @Subscription text_codec :=
  @set_subID text_codec sub0 77.

(** [client1] after a second [ProgramSubscribe]: request ids 5 and 6,
    objects 0 and 1. *)
Definition client2 : @WSClient text_codec :=
  (@ProgramSubscribe text_codec "ProgramY" "finalized" tt client1).1.

(** [client1] after [Unsubscribe] on its Subscription. *)
Definition client1_closed : @WSClient text_codec :=
  match @Unsubscribe text_codec 0%nat client1 with
  | Done c => c
  | _ => client1
  end.

(** A client whose random source always draws 5, after one
    [ProgramSubscribe]. *)
Definition client_same_id : @WSClient text_codec :=
  (@ProgramSubscribe text_codec "ProgramX" "" tt
     (@Dial text_codec "ws://localhost" (fun _ => 5))).1.

(** A notification for subscription 77 whose params carry no result. *)
Definition frame_without_result : message :=
  {| gj_id := None; gj_result := 0; gj_params_subscription := 77;
     json_Decode :=
       inr (Some {| resp_Params :=
                      Some {| Result := None; Subscription_field := 77 |};
                    resp_Error := None |}) |}.

(** A codec whose [json.Marshal] rejects every request. *)
Definition rejecting_codec : Codec :=
  {| value := string;
     reflect_Type := unit;
     json_Marshal := fun _ => inl (ErrExternal "json: unsupported type");
     json_Unmarshal := fun _ raw => inr raw;
     json2_Unmarshal := fun _ => None |}.

(** * Properties *)

Section Properties.
Context `{Codec}.

Implicit Types (c : WSClient) (s : Subscription) (p q : ptr).

(** ** Channels *)

Lemma send_empty_slot {A} (ch : chan A) (x : A) :
  buf ch = [] -> cap ch = 1%nat -> send ch x = Some (make_chan [x] 1).
Proof.
  destruct ch as [b n]; simpl; intros -> ->. reflexivity.
Qed.

Lemma send_full {A} (ch : chan A) (x : A) :
  (cap ch <= len ch)%nat -> send ch x = None.
Proof. intros Hfull. unfold send. case_decide; [done | lia]. Qed.

Lemma send_room {A} (ch : chan A) (x : A) :
  (len ch < cap ch)%nat -> send ch x = Some (make_chan (buf ch ++ [x]) (cap ch)).
Proof. intros Hroom. unfold send. case_decide; [lia | done]. Qed.

(** ** What a call leaves alone *)

Lemma rpcUnsubscribe_frame n m c :
  heap (rpcUnsubscribe n m c).2 = heap c /\
  subscriptionByRequestID (rpcUnsubscribe n m c).2 = subscriptionByRequestID c /\
  subscriptionByWSSubID (rpcUnsubscribe n m c).2 = subscriptionByWSSubID c.
Proof.
  unfold rpcUnsubscribe, newClientRequest, Int63; simpl.
  destruct (encode _) as [e|d]; [done |].
  destruct (WriteMessage _ _) as [k [e|]]; done.
Qed.

Lemma closeSubscription_absent reqID e c :
  subscriptionByRequestID c !! reqID = None ->
  closeSubscription reqID e c = Done c.
Proof. intros Hno. unfold closeSubscription. by rewrite Hno. Qed.

(** On a well-formed client [closeSubscription] of a tracked request
    returns: the error goes into the empty slot and the Subscription leaves
    both indices. *)
Lemma closeSubscription_present reqID e c p :
  wf c ->
  subscriptionByRequestID c !! reqID = Some p ->
  exists s c',
    heap c !! p = Some s /\ ID (req s) = reqID /\
    closeSubscription reqID e c = Done c' /\
    heap c' = <[p := set_err s (make_chan [e] 1)]> (heap c) /\
    subscriptionByRequestID c' = delete reqID (subscriptionByRequestID c) /\
    subscriptionByWSSubID c' = delete (subID s) (subscriptionByWSSubID c) /\
    (forall d, written (conn c) = d -> exists more, written (conn c') = d ++ more).
Proof.
  intros Hwf Hin.
  destruct (wf_req c Hwf _ _ Hin) as (s & Hs & Hid & Hempty).
  destruct (wf_chan c Hwf _ _ Hs) as (_ & Hcap & _ & _).
  exists s.
  unfold closeSubscription. rewrite Hin, Hs.
  rewrite (send_empty_slot _ e Hempty Hcap).
  set (c1 := set_heap c _).
  destruct (rpcUnsubscribe_frame (subID s) (unsubscriptionMethod s) c1)
    as (Hh & Hr & Hw).
  assert (Hconn : exists more,
    written (conn (rpcUnsubscribe (subID s) (unsubscriptionMethod s) c1).2)
    = written (conn c) ++ more).
  { unfold rpcUnsubscribe, newClientRequest, Int63; simpl.
    destruct (encode _) as [e'|d]; simpl.
    - exists []. by rewrite app_nil_r.
    - unfold WriteMessage. destruct (broken (conn c)); simpl.
      + exists []. by rewrite app_nil_r.
      + by exists [d]. }
  destruct (rpcUnsubscribe _ _ c1) as [o c2]; simpl in *.
  eexists; split; [done |]. split; [done |]. split; [reflexivity |].
  simpl. rewrite Hh, Hr, Hw, Hid. repeat split; try done.
  intros d <-. exact Hconn.
Qed.

(** ** Preservation of the registry invariant *)

Lemma wf_Dial url rnd : wf (Dial url rnd).
Proof.
  split; simpl.
  - intros k p Hk. by rewrite lookup_empty in Hk.
  - intros k p Hk. by rewrite lookup_empty in Hk.
  - intros p s Hp. by rewrite lookup_nil in Hp.
Qed.

Lemma wf_same c c' :
  heap c' = heap c ->
  subscriptionByRequestID c' = subscriptionByRequestID c ->
  subscriptionByWSSubID c' = subscriptionByWSSubID c ->
  wf c -> wf c'.
Proof.
  intros Hh Hr Hs [W1 W2 W3].
  split; rewrite ?Hh, ?Hr, ?Hs; assumption.
Qed.

(** Two entries of the request-id index never share an object. *)
Lemma wf_req_inj c k1 k2 p :
  wf c ->
  subscriptionByRequestID c !! k1 = Some p ->
  subscriptionByRequestID c !! k2 = Some p ->
  k1 = k2.
Proof.
  intros Hwf H1 H2.
  destruct (wf_req c Hwf _ _ H1) as (s1 & Hs1 & Hid1 & _).
  destruct (wf_req c Hwf _ _ H2) as (s2 & Hs2 & Hid2 & _).
  congruence.
Qed.

Lemma closeSubscription_wf reqID e c c' :
  wf c -> closeSubscription reqID e c = Done c' -> wf c'.
Proof.
  intros Hwf Hrun.
  destruct (subscriptionByRequestID c !! reqID) as [p|] eqn:Hin.
  2:{ rewrite closeSubscription_absent in Hrun by done. congruence. }
  destruct (closeSubscription_present reqID e c p Hwf Hin)
    as (s & c1 & Hs & Hid & Hrun1 & Hh & Hr & Hsub & _).
  rewrite Hrun1 in Hrun. injection Hrun as <-.
  destruct (wf_chan c Hwf _ _ Hs) as (C1 & C2 & C3 & C4).
  split.
  - intros k q Hk. rewrite Hr in Hk.
    apply lookup_delete_Some in Hk as [Hne Hk].
    destruct (wf_req c Hwf _ _ Hk) as (s' & Hs' & Hid' & Hempty').
    exists s'. split; [| done].
    rewrite Hh, list_lookup_insert_ne; [done |].
    intros ->. apply Hne. eapply wf_req_inj; eauto.
  - intros k q Hk. rewrite Hsub in Hk.
    apply lookup_delete_Some in Hk as [_ Hk].
    rewrite Hh. apply lookup_lt_is_Some. rewrite length_insert.
    apply lookup_lt_is_Some. eapply wf_sub; eauto.
  - intros q s' Hq. rewrite Hh in Hq.
    apply list_lookup_insert_Some in Hq as [(-> & <- & _) | (_ & Hq)].
    + simpl. unfold len in *; simpl. repeat split; try done; lia.
    + eapply wf_chan; eauto.
Qed.

Lemma closeSubscription_returns reqID e c :
  wf c -> exists c', closeSubscription reqID e c = Done c'.
Proof.
  intros Hwf.
  destruct (subscriptionByRequestID c !! reqID) as [p|] eqn:Hin.
  - destruct (closeSubscription_present reqID e c p Hwf Hin)
      as (s & c1 & _ & _ & Hrun & _). eauto.
  - exists c. by apply closeSubscription_absent.
Qed.

Lemma handleNewSubscriptionMessage_wf requestID n c c' :
  wf c -> handleNewSubscriptionMessage requestID n c = Done c' -> wf c'.
Proof.
  intros Hwf. unfold handleNewSubscriptionMessage.
  destruct (subscriptionByRequestID c !! requestID) as [p|] eqn:Hin; [| done].
  destruct (heap c !! p) as [s|] eqn:Hs; [| done].
  intros [= <-]. split; simpl.
  - intros k q Hk.
    destruct (wf_req c Hwf _ _ Hk) as (s' & Hs' & Hid' & Hempty').
    destruct (decide (q = p)) as [-> | Hne].
    + exists (set_subID s n). rewrite list_lookup_insert_eq.
      * assert (s' = s) as -> by congruence. done.
      * by apply lookup_lt_Some in Hs.
    + exists s'. by rewrite list_lookup_insert_ne.
  - intros k q Hk. apply lookup_lt_is_Some. rewrite length_insert.
    apply lookup_insert_Some in Hk as [[_ <-] | [_ Hk]].
    + by apply lookup_lt_Some in Hs.
    + apply lookup_lt_is_Some. eapply wf_sub; eauto.
  - intros q s' Hq.
    apply list_lookup_insert_Some in Hq as [(-> & <- & _) | (_ & Hq)].
    + simpl. eapply wf_chan; eauto.
    + eapply wf_chan; eauto.
Qed.

Lemma handleSubscriptionMessage_wf n m c c' :
  wf c -> handleSubscriptionMessage n m c = Done c' -> wf c'.
Proof.
  intros Hwf. unfold handleSubscriptionMessage.
  destruct (subscriptionByWSSubID c !! n) as [p|] eqn:Hin; [| by intros [= <-]].
  destruct (heap c !! p) as [s|] eqn:Hs; [| done].
  destruct (decodeClientResponse m (reflectType s)) as [v|e|]; [| | done].
  2:{ apply closeSubscription_wf; done. }
  case_decide as Hfull; [by apply closeSubscription_wf |].
  rewrite send_room by lia. intros [= <-].
  destruct (wf_chan c Hwf _ _ Hs) as (C1 & C2 & C3 & C4).
  split; simpl.
  - intros k q Hk.
    destruct (wf_req c Hwf _ _ Hk) as (s' & Hs' & Hid' & Hempty').
    destruct (decide (q = p)) as [-> | Hne].
    + assert (s' = s) as -> by congruence.
      eexists. rewrite list_lookup_insert_eq by (by apply lookup_lt_Some in Hs).
      split; [reflexivity | done].
    + exists s'. by rewrite list_lookup_insert_ne.
  - intros k q Hk. apply lookup_lt_is_Some. rewrite length_insert.
    apply lookup_lt_is_Some. eapply wf_sub; eauto.
  - intros q s' Hq.
    apply list_lookup_insert_Some in Hq as [(-> & <- & _) | (_ & Hq)].
    + simpl. unfold len in *; simpl. rewrite length_app; simpl.
      repeat split; try done; lia.
    + eapply wf_chan; eauto.
Qed.

Lemma handleMessage_wf m c c' :
  wf c -> handleMessage m c = Done c' -> wf c'.
Proof.
  unfold handleMessage. destruct (gj_id m).
  - apply handleNewSubscriptionMessage_wf.
  - apply handleSubscriptionMessage_wf.
Qed.

Lemma handleMessages_wf ms c c' :
  wf c -> handleMessages ms c = Done c' -> wf c'.
Proof.
  revert c. induction ms as [|m ms IH]; simpl; intros c Hwf.
  - by intros [= <-].
  - destruct (handleMessage m c) as [c1| |] eqn:H1; simpl; try done.
    apply IH. eapply handleMessage_wf; eauto.
Qed.

Lemma subscribe_wf ps sm um cm ty c :
  wf c -> wf (subscribe ps sm um cm ty c).1.
Proof.
  intros Hwf. unfold subscribe, newClientRequest, Int63.
  set (conf := if decide (cm = "") then _ else _).
  simpl. set (r := Build_clientRequest _ _ _ _).
  destruct (encode r) as [e|d]; simpl.
  { apply (wf_same c); done. }
  set (c2 := set_maps _ _ _).
  assert (Hwf2 : wf c2).
  { split; simpl.
    - intros k q Hk. apply lookup_insert_Some in Hk as [[<- <-] | [Hne Hk]].
      + exists (newSubscription r ty). split; [| done].
        rewrite lookup_app_r by lia. by rewrite Nat.sub_diag.
      + destruct (wf_req c Hwf _ _ Hk) as (s' & Hs' & Hid' & Hempty').
        exists s'. split; [| done]. by apply lookup_app_l_Some.
    - intros k q Hk. apply lookup_lt_is_Some. rewrite length_app; simpl.
      enough (q < length (heap c))%nat by lia.
      apply lookup_lt_is_Some. eapply wf_sub; eauto.
    - intros q s' Hq. apply lookup_app_Some in Hq as [Hq | [_ Hq]].
      + eapply wf_chan; eauto.
      + apply list_lookup_singleton_Some in Hq as [_ <-].
        simpl. unfold len; simpl. repeat split; lia. }
  destruct (WriteMessage d _) as [k [e|]]; simpl;
    apply (wf_same c2); done.
Qed.

Lemma Recv_wf p ch c c' r :
  wf c -> Recv p ch c = Done (c', r) -> wf c'.
Proof.
  intros Hwf. unfold Recv.
  destruct (heap c !! p) as [s|] eqn:Hs; [| done].
  destruct (wf_chan c Hwf _ _ Hs) as (C1 & C2 & C3 & C4).
  assert (Hstream : forall d rest, recv (stream s) = Some (d, rest) ->
            wf (set_heap c (<[p := set_stream s rest]> (heap c)))).
  { intros d rest Hrecv. unfold recv in Hrecv.
    destruct (buf (stream s)) as [|x xs] eqn:Hb; [done |].
    injection Hrecv as <- <-.
    split; simpl.
    - intros k q Hk.
      destruct (wf_req c Hwf _ _ Hk) as (s' & Hs' & Hid' & Hempty').
      destruct (decide (q = p)) as [-> | Hne].
      + assert (s' = s) as -> by congruence.
        eexists. rewrite list_lookup_insert_eq by (by apply lookup_lt_Some in Hs).
        split; [reflexivity | done].
      + exists s'. by rewrite list_lookup_insert_ne.
    - intros k q Hk. apply lookup_lt_is_Some. rewrite length_insert.
      apply lookup_lt_is_Some. eapply wf_sub; eauto.
    - intros q s' Hq.
      apply list_lookup_insert_Some in Hq as [(-> & <- & _) | (_ & Hq)].
      + simpl. unfold len in *; simpl. rewrite Hb in C3; simpl in C3.
        repeat split; try done; lia.
      + eapply wf_chan; eauto. }
  assert (Herr : forall e rest, recv (err s) = Some (e, rest) ->
            wf (set_heap c (<[p := set_err s rest]> (heap c)))).
  { intros e rest Hrecv. unfold recv in Hrecv.
    destruct (buf (err s)) as [|x xs] eqn:Hb; [done |].
    injection Hrecv as <- <-.
    split; simpl.
    - intros k q Hk.
      destruct (wf_req c Hwf _ _ Hk) as (s' & Hs' & Hid' & Hempty').
      destruct (decide (q = p)) as [-> | Hne].
      + assert (s' = s) as -> by congruence. congruence.
      + exists s'. by rewrite list_lookup_insert_ne.
    - intros k q Hk. apply lookup_lt_is_Some. rewrite length_insert.
      apply lookup_lt_is_Some. eapply wf_sub; eauto.
    - intros q s' Hq.
      apply list_lookup_insert_Some in Hq as [(-> & <- & _) | (_ & Hq)].
      + simpl. unfold len in *; simpl. rewrite Hb in C4; simpl in C4.
        repeat split; try done; lia.
      + eapply wf_chan; eauto. }
  destruct (recv (stream s)) as [[d rest1]|] eqn:R1;
    destruct (recv (err s)) as [[e rest2]|] eqn:R2; try done.
  - destruct ch; intros [= <- <-]; eauto.
  - intros [= <- <-]; eauto.
  - intros [= <- <-]; eauto.
Qed.

(** ** closeAllSubscription *)

(** When the objects to visit are distinct and their error slots empty,
    every one of them receives the error and nothing else changes. *)
Lemma push_err_all_spec (order : list (Z * ptr)) (e : error)
    (h : list Subscription) :
  NoDup (order.*2) ->
  (forall p, p ∈ order.*2 ->
     exists s, h !! p = Some s /\ buf (err s) = [] /\ cap (err s) = 1%nat) ->
  exists h',
    push_err_all order e h = Done h' /\
    length h' = length h /\
    forall q s, h !! q = Some s ->
      h' !! q = Some (if decide (q ∈ order.*2)
                      then set_err s (make_chan [Some e] 1) else s).
Proof.
  revert h. induction order as [|[k p] rest IH]; intros h Hnd Hall.
  - exists h. repeat split; done.
  - rewrite fmap_cons in Hnd, Hall. simpl in Hnd, Hall.
    apply NoDup_cons in Hnd as [Hfresh Hnd].
    destruct (Hall p) as (s & Hs & Hempty & Hcap); [by left |].
    simpl. rewrite Hs, (send_empty_slot _ (Some e) Hempty Hcap).
    set (h1 := <[p := set_err s (make_chan [Some e] 1)]> h).
    destruct (IH h1 Hnd) as (h' & Hrun & Hlen & Hget).
    { intros p' Hp'. destruct (Hall p') as (s' & Hs' & ?); [by right |].
      exists s'. split; [| done]. unfold h1.
      rewrite list_lookup_insert_ne; [done |]. by intros ->. }
    exists h'. split; [done |]. split.
    { rewrite Hlen. unfold h1. by rewrite length_insert. }
    intros q sq Hq. simpl.
    destruct (decide (q = p)) as [-> | Hne].
    + assert (sq = s) as -> by congruence.
      rewrite (Hget p (set_err s (make_chan [Some e] 1))).
      * rewrite decide_False by done. rewrite decide_True by (by left). done.
      * unfold h1. apply list_lookup_insert_eq. by apply lookup_lt_Some in Hs.
    + rewrite (Hget q sq) by (unfold h1; by rewrite list_lookup_insert_ne).
      destruct (decide (q ∈ rest.*2)) as [Hin | Hout].
      * by rewrite decide_True by (by right).
      * rewrite decide_False; [done |].
        intros [? | ?]%elem_of_cons; done.
Qed.

Lemma wf_range_order c (order : list (Z * ptr)) :
  wf c ->
  order ≡ₚ map_to_list (subscriptionByRequestID c) ->
  NoDup (order.*2) /\
  (forall p, p ∈ order.*2 <-> in_pending p c) /\
  (forall p, p ∈ order.*2 ->
     exists s, heap c !! p = Some s /\ buf (err s) = [] /\ cap (err s) = 1%nat).
Proof.
  intros Hwf Hperm.
  assert (Hmem : forall k p, (k, p) ∈ order <->
                   subscriptionByRequestID c !! k = Some p).
  { intros k p. rewrite Hperm. apply elem_of_map_to_list. }
  assert (Hiff : forall p, p ∈ order.*2 <-> in_pending p c).
  { intros p. rewrite list_elem_of_fmap. split.
    - intros ([k p'] & -> & Hin). exists k. by apply Hmem.
    - intros (k & Hk). exists (k, p). split; [done |]. by apply Hmem. }
  split; [| split; [done |]].
  - apply NoDup_fmap_2_strong.
    + intros [k1 p1] [k2 p2] H1 H2; simpl; intros <-.
      apply Hmem in H1, H2. f_equal. eapply wf_req_inj; eauto.
    + rewrite Hperm. apply NoDup_map_to_list.
  - intros p (k & Hk)%Hiff.
    destruct (wf_req c Hwf _ _ Hk) as (s & Hs & _ & Hempty).
    destruct (wf_chan c Hwf _ _ Hs) as (_ & Hcap & _).
    eauto.
Qed.

Lemma closeAllSubscription_in_spec (order : list (Z * ptr)) e c :
  wf c ->
  order ≡ₚ map_to_list (subscriptionByRequestID c) ->
  exists c',
    closeAllSubscription_in order e c = Done c' /\
    subscriptionByRequestID c' = ∅ /\
    subscriptionByWSSubID c' = ∅ /\
    conn c' = conn c /\
    length (heap c') = length (heap c) /\
    forall q s, heap c !! q = Some s ->
      heap c' !! q = Some (if decide (q ∈ order.*2)
                           then set_err s (make_chan [Some e] 1) else s).
Proof.
  intros Hwf Hperm.
  destruct (wf_range_order c order Hwf Hperm) as (Hnd & _ & Hall).
  destruct (push_err_all_spec order e (heap c) Hnd Hall)
    as (h' & Hrun & Hlen & Hget).
  unfold closeAllSubscription_in. rewrite Hrun. simpl.
  eexists. split; [reflexivity |]. simpl. done.
Qed.

(** The order in which the [range] visits the map does not matter. *)
Lemma closeAllSubscription_order (order : list (Z * ptr)) e c :
  wf c ->
  order ≡ₚ map_to_list (subscriptionByRequestID c) ->
  closeAllSubscription_in order e c = closeAllSubscription e c.
Proof.
  intros Hwf Hperm.
  destruct (wf_range_order c order Hwf Hperm) as (Hnd1 & _ & Hall1).
  destruct (wf_range_order c _ Hwf (reflexivity _)) as (Hnd2 & _ & Hall2).
  destruct (push_err_all_spec order e (heap c) Hnd1 Hall1)
    as (h1 & Hrun1 & Hlen1 & Hget1).
  destruct (push_err_all_spec _ e (heap c) Hnd2 Hall2)
    as (h2 & Hrun2 & Hlen2 & Hget2).
  unfold closeAllSubscription, closeAllSubscription_in.
  rewrite Hrun1, Hrun2. simpl. do 3 f_equal.
  apply list_eq. intros i.
  destruct (heap c !! i) as [s|] eqn:Hi.
  - rewrite (Hget1 _ _ Hi), (Hget2 _ _ Hi). f_equal.
    destruct (decide (i ∈ order.*2)) as [Hin | Hout].
    + rewrite decide_True; [done |]. by rewrite <- Hperm.
    + rewrite decide_False; [done |]. by rewrite <- Hperm.
  - apply lookup_ge_None in Hi.
    rewrite !(proj2 (lookup_ge_None _ _)); [done | lia | lia].
Qed.

Lemma closeAllSubscription_wf e c c' :
  wf c -> closeAllSubscription e c = Done c' -> wf c'.
Proof.
  intros Hwf Hrun.
  destruct (closeAllSubscription_in_spec _ e c Hwf (reflexivity _))
    as (c1 & Hrun1 & Hr & Hs & _ & Hlen & Hget).
  unfold closeAllSubscription in Hrun. rewrite Hrun1 in Hrun.
  injection Hrun as <-. split.
  - intros k p Hk. by rewrite Hr, lookup_empty in Hk.
  - intros k p Hk. by rewrite Hs, lookup_empty in Hk.
  - intros q s' Hq.
    assert (is_Some (heap c !! q)) as [s Hs0].
    { apply lookup_lt_is_Some. rewrite <- Hlen. by apply lookup_lt_Some in Hq. }
    destruct (wf_chan c Hwf _ _ Hs0) as (C1 & C2 & C3 & C4).
    rewrite (Hget _ _ Hs0) in Hq. injection Hq as <-.
    case_decide; [| done]. simpl. unfold len in *; simpl.
    repeat split; try done; lia.
Qed.

Lemma step_wf a c c' : wf c -> step a c = Done c' -> wf c'.
Proof.
  intros Hwf. destruct a; simpl.
  - intros [= <-]. by apply subscribe_wf.
  - by apply handleMessage_wf.
  - by apply closeSubscription_wf.
  - by apply closeAllSubscription_wf.
  - destruct (Recv p ch c) as [[c1 r]| |] eqn:HR; simpl; try done.
    intros [= <-]. eapply Recv_wf; eauto.
  - unfold Unsubscribe, unsubscribe, closeFunc.
    destruct (heap c !! p); [| done]. by apply closeSubscription_wf.
Qed.

Lemma run_wf calls c c' : wf c -> run calls c = Done c' -> wf c'.
Proof.
  revert c. induction calls as [|a calls IH]; simpl; intros c Hwf.
  - by intros [= <-].
  - destruct (step a c) as [c1| |] eqn:H1; simpl; try done.
    apply IH. eapply step_wf; eauto.
Qed.

(** ** Notifications *)

Lemma handleSubscriptionMessage_push n m c p s v :
  subscriptionByWSSubID c !! n = Some p ->
  heap c !! p = Some s ->
  decodeClientResponse m (reflectType s) = DecOk v ->
  (len (stream s) < cap (stream s))%nat ->
  handleSubscriptionMessage n m c =
    Done (set_heap c
            (<[p := set_stream s (make_chan (buf (stream s) ++ [Some v])
                                            (cap (stream s)))]> (heap c))).
Proof.
  intros Hn Hs Hdec Hroom. unfold handleSubscriptionMessage.
  rewrite Hn, Hs, Hdec. rewrite decide_False by lia.
  by rewrite send_room.
Qed.

(** On a well-formed client the reader never waits in
    [handleSubscriptionMessage], whatever the frame. *)
Lemma handleSubscriptionMessage_never_waits n m c w :
  wf c -> handleSubscriptionMessage n m c <> Blocked w.
Proof.
  intros Hwf. unfold handleSubscriptionMessage.
  destruct (subscriptionByWSSubID c !! n) as [p|]; [| done].
  destruct (heap c !! p) as [s|]; [| done].
  destruct (decodeClientResponse m (reflectType s)) as [v|e|]; [| | done].
  - case_decide as Hfull.
    + destruct (closeSubscription_returns (ID (req s))
        (Some (Errorf "reached channel max capacity %d"
                 [ArgD (Z.of_nat (len (stream s)))])) c Hwf) as [c' ->]. done.
    + rewrite send_room by lia. done.
  - destruct (closeSubscription_returns (ID (req s))
        (Some (Wrapf "unable to decode client response: %w" e)) c Hwf)
      as [c' ->]. done.
Qed.

(** C1. A notification that decodes, routed to a live Subscription of the
    active index: when the delivery pipe holds its 200 results, the
    Subscription is closed with the capacity error (the error goes into
    its error slot, the pipe is left as it was, the Subscription leaves
    both indices) and the call returns; the call never waits; when the
    pipe holds fewer than 200 results the decoded result is appended to
    it and nothing else changes. *)
Theorem C1_backpressure n m c p s v :
  wf c ->
  subscriptionByWSSubID c !! n = Some p ->
  heap c !! p = Some s ->
  subscriptionByRequestID c !! ID (req s) = Some p ->
  decodeClientResponse m (reflectType s) = DecOk v ->
  ((200 <= len (stream s))%nat ->
     exists c',
       handleSubscriptionMessage n m c = Done c' /\
       heap c' !! p =
         Some (set_err s
                 (make_chan [Some (Errorf "reached channel max capacity %d"
                                          [ArgD 200])] 1)) /\
       subscriptionByRequestID c' !! ID (req s) = None /\
       subscriptionByWSSubID c' !! subID s = None) /\
  (forall w, handleSubscriptionMessage n m c <> Blocked w) /\
  ((len (stream s) < 200)%nat ->
     handleSubscriptionMessage n m c =
       Done (set_heap c
               (<[p := set_stream s
                         (make_chan (buf (stream s) ++ [Some v]) 200)]>
                  (heap c)))).
Proof.
  intros Hwf Hn Hs Hlive Hdec.
  destruct (wf_chan c Hwf _ _ Hs) as (C1 & C2 & C3 & C4).
  split; [| split].
  - intros Hfull.
    assert (Hlen : len (stream s) = 200%nat) by lia.
    destruct (closeSubscription_present (ID (req s))
      (Some (Errorf "reached channel max capacity %d" [ArgD 200])) c p
      Hwf Hlive) as (s0 & c' & Hs0 & _ & Hrun & Hh & Hr & Hsub & _).
    assert (s0 = s) as -> by congruence.
    exists c'. split.
    + unfold handleSubscriptionMessage. rewrite Hn, Hs, Hdec.
      rewrite decide_True by lia. by rewrite Hlen.
    + rewrite Hh, Hr, Hsub. split; [| split].
      * apply list_lookup_insert_eq. by apply lookup_lt_Some in Hs.
      * apply lookup_delete_eq.
      * apply lookup_delete_eq.
  - intros w. by apply handleSubscriptionMessage_never_waits.
  - intros Hroom. rewrite <- C1.
    apply handleSubscriptionMessage_push; try done. lia.
Qed.

(** ** Receiving *)

Lemma Recv_stream_only p ch c s d rest :
  heap c !! p = Some s ->
  buf (stream s) = d :: rest ->
  buf (err s) = [] ->
  Recv p ch c =
    Done (set_heap c (<[p := set_stream s (make_chan rest (cap (stream s)))]>
                        (heap c)),
          (d, None)).
Proof.
  intros Hs Hb He. unfold Recv, recv. by rewrite Hs, Hb, He.
Qed.

Lemma Recv_err_only p ch c s e :
  heap c !! p = Some s ->
  buf (stream s) = [] ->
  buf (err s) = [e] ->
  Recv p ch c =
    Done (set_heap c (<[p := set_err s (make_chan [] (cap (err s)))]> (heap c)),
          (None, e)).
Proof.
  intros Hs Hb He. unfold Recv, recv. by rewrite Hs, Hb, He.
Qed.

Lemma Recv_nothing p ch c s :
  heap c !! p = Some s ->
  buf (stream s) = [] ->
  buf (err s) = [] ->
  Recv p ch c = Blocked WaitRecv.
Proof.
  intros Hs Hb He. unfold Recv, recv. by rewrite Hs, Hb, He.
Qed.

(** With an empty error slot, successive calls return the contents of
    the delivery pipe front to back. *)
Lemma RecvN_drains p (l : list result) : forall picks c s,
  heap c !! p = Some s ->
  buf (stream s) = l ->
  buf (err s) = [] ->
  (length l <= length picks)%nat ->
  RecvN p picks c = (fun d => (d, None)) <$> l.
Proof.
  induction l as [|d l IH]; intros picks c s Hs Hb He Hlen.
  - destruct picks as [|ch picks]; [done |]. simpl.
    by rewrite (Recv_nothing p ch c s).
  - destruct picks as [|ch picks]; [simpl in Hlen; lia |]. simpl.
    rewrite (Recv_stream_only p ch c s d l) by done.
    f_equal.
    eapply IH; simpl.
    + apply list_lookup_insert_eq. by apply lookup_lt_Some in Hs.
    + done.
    + done.
    + simpl in Hlen. lia.
Qed.

(** With a written error slot, the error is returned by one of the first
    [len stream + 1] calls, however the [select]s choose. *)
Lemma RecvN_reaches_error p (l : list result) : forall picks c s e,
  heap c !! p = Some s ->
  buf (stream s) = l ->
  buf (err s) = [e] ->
  (length l < length picks)%nat ->
  (None, e) ∈ RecvN p picks c.
Proof.
  induction l as [|d l IH]; intros picks c s e Hs Hb He Hlen.
  - destruct picks as [|ch picks]; [simpl in Hlen; lia |]. simpl.
    rewrite (Recv_err_only p ch c s e) by done. by left.
  - destruct picks as [|ch picks]; [simpl in Hlen; lia |]. simpl.
    unfold Recv, recv. rewrite Hs, Hb, He.
    destruct ch; [| by left].
    right. eapply IH; simpl.
    + apply list_lookup_insert_eq. by apply lookup_lt_Some in Hs.
    + done.
    + done.
    + simpl in Hlen. lia.
Qed.

Lemma set_stream_set_stream s ch1 ch2 :
  set_stream (set_stream s ch1) ch2 = set_stream s ch2.
Proof. done. Qed.

(** Frames for subscription id [n] that decode to [vs], with room in the
    pipe: each result is appended to the pipe of the object registered
    under [n], in order, and nothing else changes. *)
Lemma handleMessages_append n p (ms : list message) : forall (vs : list value) c s,
  subscriptionByWSSubID c !! n = Some p ->
  heap c !! p = Some s ->
  Forall2 (fun m v => gj_id m = None /\
                      uint64 (gj_params_subscription m) = n /\
                      decodeClientResponse m (reflectType s) = DecOk v) ms vs ->
  (len (stream s) + length vs <= cap (stream s))%nat ->
  handleMessages ms c =
    Done (set_heap c
            (<[p := set_stream s
                     (make_chan (buf (stream s) ++ (Some <$> vs))
                                (cap (stream s)))]> (heap c))).
Proof.
  induction ms as [|m ms IH]; intros vs c s Hn Hs Hall Hroom.
  - apply Forall2_nil_inv_l in Hall as ->. simpl.
    rewrite app_nil_r. f_equal.
    destruct c; unfold set_heap; simpl in *. f_equal.
    symmetry. apply list_insert_id. rewrite Hs. f_equal.
    by destruct s as [? ? [? ?] ? ? ?].
  - apply Forall2_cons_inv_l in Hall as (v & vs' & (Hid & Hsub & Hdec) & Hall & ->).
    simpl in Hroom. simpl. unfold handleMessage. rewrite Hid, Hsub.
    rewrite (handleSubscriptionMessage_push n m c p s v) by (done || lia).
    simpl.
    set (s1 := set_stream s _).
    rewrite (IH vs' _ s1); simpl.
    + unfold set_heap; simpl. rewrite list_insert_insert_eq.
      rewrite <- app_assoc. done.
    + done.
    + apply list_lookup_insert_eq. by apply lookup_lt_Some in Hs.
    + done.
    + unfold len in *; simpl. rewrite length_app; simpl. lia.
Qed.

(** The same with the consumer calling [Recv] between frames: what the
    consumer has received so far, followed by what is still in the pipe, is
    what was pending at the start followed by the payloads of the frames
    handled, in order; every pair received carries a nil error. *)
Lemma play_fifo n p (evs : list event) : forall c s c' outs,
  subscriptionByWSSubID c !! n = Some p ->
  heap c !! p = Some s ->
  buf (err s) = [] ->
  Forall (fun m => gj_id m = None /\
                   uint64 (gj_params_subscription m) = n /\
                   exists v, decodeClientResponse m (reflectType s) = DecOk v)
         (frames_of evs) ->
  (len (stream s) + length (frames_of evs) <= cap (stream s))%nat ->
  play p evs c = Done (c', outs) ->
  exists s',
    heap c' !! p = Some s' /\
    (fst <$> outs) ++ buf (stream s')
      = buf (stream s) ++ (Some <$> payloads (reflectType s) evs) /\
    Forall (fun r => r.2 = None) outs.
Proof.
  induction evs as [|[m|ch] evs IH]; intros c s c' outs Hn Hs He Hall Hroom;
    simpl.
  - intros [= <- <-]. exists s. simpl. by rewrite app_nil_r.
  - simpl in Hall, Hroom. apply Forall_cons in Hall as [(Hid & Hsub & v & Hdec) Hall].
    unfold handleMessage. rewrite Hid, Hsub.
    rewrite (handleSubscriptionMessage_push n m c p s v) by (done || lia).
    simpl. rewrite Hdec. intros Hplay.
    set (s1 := set_stream s (make_chan (buf (stream s) ++ [Some v])
                                       (cap (stream s)))) in Hplay.
    destruct (IH (set_heap c (<[p := s1]> (heap c))) s1 c' outs) as (s' & Hs' & Heq & Hnil); simpl; try done.
    + apply list_lookup_insert_eq. by apply lookup_lt_Some in Hs.
    + unfold len in *; simpl. rewrite length_app; simpl. lia.
    + exists s'. split; [done |]. split; [| done].
      rewrite Heq. simpl. by rewrite <- app_assoc.
  - simpl in Hall, Hroom.
    destruct (buf (stream s)) as [|d l] eqn:Hb.
    { by rewrite (Recv_nothing p ch c s). }
    rewrite (Recv_stream_only p ch c s d l) by done. simpl.
    destruct (play p evs _) as [[c1 outs1]| |] eqn:Hplay; simpl; try done.
    intros [= <- <-].
    set (s1 := set_stream s (make_chan l (cap (stream s)))) in Hplay.
    destruct (IH (set_heap c (<[p := s1]> (heap c))) s1 c1 outs1) as (s' & Hs' & Heq & Hnil); simpl; try done.
    + apply list_lookup_insert_eq. by apply lookup_lt_Some in Hs.
    + unfold len in *; simpl. rewrite Hb in Hroom. simpl in Hroom. lia.
    + exists s'. split; [done |]. split.
      * simpl. f_equal. exact Heq.
      * by constructor.
Qed.

(** C9. Notification frames bearing subscription id [n], processed in
    order while the Subscription with assigned id [n] is live and its pipe
    has room: the decoded payloads go to that Subscription only (no other
    object and neither index changes), and successive [Recv] calls on it
    return the results already pending followed by the new ones, in the
    order the frames were processed, each with a nil error. *)
Theorem C9_fifo_per_subscription n p (ms : list message) (vs : list value) c s :
  wf c ->
  subscriptionByWSSubID c !! n = Some p ->
  heap c !! p = Some s ->
  subID s = n ->
  subscriptionByRequestID c !! ID (req s) = Some p ->
  Forall2 (fun m v => gj_id m = None /\
                      uint64 (gj_params_subscription m) = n /\
                      decodeClientResponse m (reflectType s) = DecOk v) ms vs ->
  (len (stream s) + length vs <= 200)%nat ->
  exists c',
    handleMessages ms c = Done c' /\
    (forall q, q <> p -> heap c' !! q = heap c !! q) /\
    subscriptionByRequestID c' = subscriptionByRequestID c /\
    subscriptionByWSSubID c' = subscriptionByWSSubID c /\
    forall picks,
      (len (stream s) + length vs <= length picks)%nat ->
      RecvN p picks c' =
        (fun d => (d, None)) <$> (buf (stream s) ++ (Some <$> vs)).
Proof.
  intros Hwf Hn Hs Hid Hlive Hall Hroom.
  destruct (wf_chan c Hwf _ _ Hs) as (C1 & C2 & C3 & C4).
  destruct (wf_req c Hwf _ _ Hlive) as (s0 & Hs0 & _ & Hempty).
  assert (s0 = s) as -> by congruence.
  eexists. split.
  { apply (handleMessages_append n p ms vs c s); try done. lia. }
  simpl. split; [| split; [done | split; [done |]]].
  - intros q Hne. by rewrite list_lookup_insert_ne.
  - intros picks Hlen.
    eapply RecvN_drains; simpl.
    + apply list_lookup_insert_eq. by apply lookup_lt_Some in Hs.
    + done.
    + done.
    + rewrite length_app, length_fmap. unfold len in Hlen. lia.
Qed.

(** ** The reader loop *)

Lemma receiveMessages_app (ms : list message) (tl : list read) c :
  receiveMessages ((ReadMsg <$> ms) ++ tl) c =
    (c1 <-- handleMessages ms c ;; receiveMessages tl c1).
Proof.
  revert c. induction ms as [|m ms IH]; intros c; simpl; [done |].
  destruct (handleMessage m c) as [c1| |]; simpl; [apply IH | done | done].
Qed.

(** C4. A read error after any number of handled frames: the loop
    returns, both indices are empty, and every Subscription that was in
    the request-id index has the read error, and nothing else, in its
    error slot with its pipe untouched, so that [Recv] on it returns that
    error once the results still pending have been taken. *)
Theorem C4_read_error_fan_out (ms : list message) (e : error)
    (rest : list read) c c1 :
  wf c ->
  handleMessages ms c = Done c1 ->
  exists c2,
    receiveMessages ((ReadMsg <$> ms) ++ ReadErr e :: rest) c = Done c2 /\
    subscriptionByRequestID c2 = ∅ /\
    subscriptionByWSSubID c2 = ∅ /\
    forall k p, subscriptionByRequestID c1 !! k = Some p ->
      exists s,
        heap c1 !! p = Some s /\
        heap c2 !! p = Some (set_err s (make_chan [Some e] 1)) /\
        forall picks, (len (stream s) < length picks)%nat ->
          (None, Some e) ∈ RecvN p picks c2.
Proof.
  intros Hwf Hms.
  assert (Hwf1 : wf c1) by (eapply handleMessages_wf; eauto).
  destruct (closeAllSubscription_in_spec _ e c1 Hwf1 (reflexivity _))
    as (c2 & Hrun & Hr & Hs & _ & Hlen & Hget).
  destruct (wf_range_order c1 _ Hwf1 (reflexivity _)) as (_ & Hmem & _).
  exists c2. split; [| split; [done | split; [done |]]].
  - rewrite receiveMessages_app, Hms. simpl. exact Hrun.
  - intros k p Hk.
    destruct (wf_req c1 Hwf1 _ _ Hk) as (s & Hsp & _ & _).
    exists s. split; [done |].
    assert (Hp2 : heap c2 !! p = Some (set_err s (make_chan [Some e] 1))).
    { rewrite (Hget _ _ Hsp). rewrite decide_True; [done |].
      apply Hmem. by exists k. }
    split; [done |].
    intros picks Hpicks.
    by eapply RecvN_reaches_error.
Qed.

(** ** What later calls do to a closed Subscription *)

Lemma closeSubscription_shape reqID e c c' :
  closeSubscription reqID e c = Done c' ->
  (forall k, subscriptionByRequestID c !! k = None ->
             subscriptionByRequestID c' !! k = None) /\
  (forall p s, heap c !! p = Some s ->
     exists s', heap c' !! p = Some s' /\ req s' = req s).
Proof.
  unfold closeSubscription.
  destruct (subscriptionByRequestID c !! reqID) as [q|].
  2:{ intros [= <-]. eauto. }
  destruct (heap c !! q) as [sq|] eqn:Hq; [| done].
  destruct (send (err sq) e) as [ch|]; [| done].
  set (c1 := set_heap c _).
  destruct (rpcUnsubscribe_frame (subID sq) (unsubscriptionMethod sq) c1)
    as (Hh & Hr & _).
  destruct (rpcUnsubscribe _ _ c1) as [o c2]; simpl in *.
  intros [= <-]. simpl. rewrite Hh, Hr. split.
  - intros k Hk. apply lookup_delete_None. by right.
  - intros p s Hp. destruct (decide (p = q)) as [-> | Hne].
    + exists (set_err sq ch).
      rewrite list_lookup_insert_eq by (by apply lookup_lt_Some in Hq).
      split; [done |]. simpl. congruence.
    + exists s. by rewrite list_lookup_insert_ne.
Qed.

Lemma push_err_all_req (order : list (Z * ptr)) e : forall h h',
  push_err_all order e h = Done h' ->
  forall p s, h !! p = Some s -> exists s', h' !! p = Some s' /\ req s' = req s.
Proof.
  induction order as [|[k q] rest IH]; intros h h'; simpl.
  - intros [= <-]. eauto.
  - destruct (h !! q) as [sq|] eqn:Hq; [| done].
    destruct (send (err sq) (Some e)) as [ch|]; [| done].
    intros Hrun p s Hp.
    destruct (decide (p = q)) as [-> | Hne].
    + destruct (IH _ _ Hrun q (set_err sq ch)) as (s' & Hs' & Hreq).
      { apply list_lookup_insert_eq. by apply lookup_lt_Some in Hq. }
      exists s'. split; [done |]. rewrite Hreq. simpl. congruence.
    + apply (IH _ _ Hrun). by rewrite list_lookup_insert_ne.
Qed.

(** A call other than [subscribe] adds nothing to the request-id index
    and changes the request of no Subscription. *)
Lemma step_shape a c c' :
  not_subscribe a ->
  step a c = Done c' ->
  (forall k, subscriptionByRequestID c !! k = None ->
             subscriptionByRequestID c' !! k = None) /\
  (forall p s, heap c !! p = Some s ->
     exists s', heap c' !! p = Some s' /\ req s' = req s).
Proof.
  destruct a as [ps sm um cm ty | m | reqID e0 | e | p0 ch | p0];
    simpl; intros Hns Hstep; [done | | | | |].
  - unfold handleMessage in Hstep. destruct (gj_id m) as [i|].
    + unfold handleNewSubscriptionMessage in Hstep.
      destruct (subscriptionByRequestID c !! uint64 i) as [q|]; [| done].
      destruct (heap c !! q) as [sq|] eqn:Hq; [| done].
      injection Hstep as <-. simpl. split; [done |].
      intros p s Hp. destruct (decide (p = q)) as [-> | Hne].
      * exists (set_subID sq (uint64 (gj_result m))).
        rewrite list_lookup_insert_eq by (by apply lookup_lt_Some in Hq).
        split; [done |]. simpl. congruence.
      * exists s. by rewrite list_lookup_insert_ne.
    + unfold handleSubscriptionMessage in Hstep.
      destruct (subscriptionByWSSubID c !! _) as [q|].
      2:{ injection Hstep as <-. eauto. }
      destruct (heap c !! q) as [sq|] eqn:Hq; [| done].
      destruct (decodeClientResponse m (reflectType sq)) as [v|e|]; [| | done].
      * case_decide as Hfull; [by eapply closeSubscription_shape |].
        rewrite send_room in Hstep by lia. injection Hstep as <-.
        simpl. split; [done |].
        intros p s Hp. destruct (decide (p = q)) as [-> | Hne].
        -- eexists.
           rewrite list_lookup_insert_eq by (by apply lookup_lt_Some in Hq).
           split; [done |]. simpl. congruence.
        -- exists s. by rewrite list_lookup_insert_ne.
      * by eapply closeSubscription_shape.
  - by eapply closeSubscription_shape.
  - unfold closeAllSubscription, closeAllSubscription_in in Hstep.
    destruct (push_err_all _ e (heap c)) as [h'| |] eqn:Hpush; try done.
    simpl in Hstep. injection Hstep as <-. simpl. split.
    + intros k _. apply lookup_empty.
    + by eapply push_err_all_req.
  - destruct (Recv p0 ch c) as [[c1 r]| |] eqn:HR; simpl in Hstep; try done.
    injection Hstep as <-. unfold Recv in HR.
    destruct (heap c !! p0) as [s0|] eqn:H0; [| done].
    assert (Hupd : forall s1, req s1 = req s0 ->
      forall p s, heap c !! p = Some s ->
        exists s', <[p0 := s1]> (heap c) !! p = Some s' /\ req s' = req s).
    { intros s1 Hreq p s Hp. destruct (decide (p = p0)) as [-> | Hne].
      - exists s1.
        rewrite list_lookup_insert_eq by (by apply lookup_lt_Some in H0).
        split; [done |]. congruence.
      - exists s. by rewrite list_lookup_insert_ne. }
    destruct (recv (stream s0)) as [[d rest1]|];
      destruct (recv (err s0)) as [[x rest2]|]; try done;
      try destruct ch; injection HR as <- _; simpl;
      (split; [done | by apply Hupd]).
  - unfold Unsubscribe, unsubscribe, closeFunc in Hstep.
    destruct (heap c !! p0) as [s0|]; [| done].
    by eapply closeSubscription_shape.
Qed.

Lemma run_shape (calls : list call) : forall c c',
  Forall not_subscribe calls ->
  run calls c = Done c' ->
  (forall k, subscriptionByRequestID c !! k = None ->
             subscriptionByRequestID c' !! k = None) /\
  (forall p s, heap c !! p = Some s ->
     exists s', heap c' !! p = Some s' /\ req s' = req s).
Proof.
  induction calls as [|a calls IH]; intros c c' Hall; simpl.
  - intros [= <-]. eauto.
  - apply Forall_cons in Hall as [Ha Hall].
    destruct (step a c) as [c1| |] eqn:H1; simpl; try done.
    intros Hrun.
    destruct (step_shape a c c1 Ha H1) as (Hn1 & Hr1).
    destruct (IH c1 c' Hall Hrun) as (Hn2 & Hr2).
    split; [eauto |].
    intros p s Hp. destruct (Hr1 p s Hp) as (s1 & Hs1 & Heq1).
    destruct (Hr2 p s1 Hs1) as (s2 & Hs2 & Heq2).
    exists s2. split; [done | congruence].
Qed.

(** ** Unsubscribe *)

(** C8. On a well-formed client [Unsubscribe] returns, and a second
    [Unsubscribe] on the same Subscription returns the client unchanged:
    no error is pushed, no frame is written, no index is touched.  The
    same holds when other calls ran in between, as long as none of them is
    a [subscribe] (which could draw the request id again). *)
Theorem C8_unsubscribe_twice p c :
  wf c ->
  is_Some (heap c !! p) ->
  exists c1,
    Unsubscribe p c = Done c1 /\
    Unsubscribe p c1 = Done c1 /\
    forall (calls : list call) c2,
      Forall not_subscribe calls ->
      run calls c1 = Done c2 ->
      Unsubscribe p c2 = Done c2.
Proof.
  intros Hwf [s Hs].
  assert (Hfirst : exists c1 s1,
    Unsubscribe p c = Done c1 /\
    heap c1 !! p = Some s1 /\
    subscriptionByRequestID c1 !! ID (req s1) = None).
  { unfold Unsubscribe, unsubscribe, closeFunc. rewrite Hs.
    destruct (subscriptionByRequestID c !! ID (req s)) as [q|] eqn:Hin.
    - destruct (closeSubscription_present (ID (req s)) None c q Hwf Hin)
        as (sq & c1 & Hsq & Hid & Hrun & Hh & Hr & _).
      assert (Hs1 : exists s1, heap c1 !! p = Some s1 /\ req s1 = req s).
      { rewrite Hh. destruct (decide (p = q)) as [-> | Hne].
        - exists (set_err sq (make_chan [None] 1)).
          rewrite list_lookup_insert_eq by (by apply lookup_lt_Some in Hsq).
          split; [done |]. simpl. congruence.
        - exists s. by rewrite list_lookup_insert_ne. }
      destruct Hs1 as (s1 & Hs1 & Hreq).
      exists c1, s1. split; [done |]. split; [done |].
      rewrite Hr, Hreq. apply lookup_delete_eq.
    - exists c, s. split; [| done]. by apply closeSubscription_absent. }
  destruct Hfirst as (c1 & s1 & Hrun1 & Hs1 & Hgone).
  assert (Hnoop : forall c2 s2,
    heap c2 !! p = Some s2 -> req s2 = req s1 ->
    subscriptionByRequestID c2 !! ID (req s1) = None ->
    Unsubscribe p c2 = Done c2).
  { intros c2 s2 Hs2 Hreq Hnone.
    unfold Unsubscribe, unsubscribe, closeFunc. rewrite Hs2, Hreq.
    by apply closeSubscription_absent. }
  exists c1. split; [done |]. split; [by eapply Hnoop |].
  intros calls c2 Hall Hrun.
  destruct (run_shape calls c1 c2 Hall Hrun) as (Hnone & Hreq).
  destruct (Hreq p s1 Hs1) as (s2 & Hs2 & Heq).
  eapply Hnoop; eauto.
Qed.

(** C10. [Unsubscribe] on a live Subscription puts the nil error into
    its error slot; [Recv] then returns (nil, nil) as soon as the [select]
    takes the error case, which it must when the pipe is empty; and [Recv]
    returns the same pair (nil, nil) for a nil result at the head of the
    pipe of a Subscription that was not closed. *)
Theorem C10_unsubscribe_nil_error p c s :
  wf c ->
  heap c !! p = Some s ->
  subscriptionByRequestID c !! ID (req s) = Some p ->
  exists c1,
    Unsubscribe p c = Done c1 /\
    heap c1 !! p = Some (set_err s (make_chan [None] 1)) /\
    (forall ch, ch = PickErr \/ buf (stream s) = [] ->
       exists c2, Recv p ch c1 = Done (c2, (None, None))) /\
    (forall ch c' s' rest,
       heap c' !! p = Some s' ->
       buf (stream s') = None :: rest ->
       buf (err s') = [] ->
       exists c'', Recv p ch c' = Done (c'', (None, None))).
Proof.
  intros Hwf Hs Hlive.
  destruct (closeSubscription_present (ID (req s)) None c p Hwf Hlive)
    as (s0 & c1 & Hs0 & _ & Hrun & Hh & _).
  assert (s0 = s) as -> by congruence.
  assert (Hp1 : heap c1 !! p = Some (set_err s (make_chan [None] 1))).
  { rewrite Hh. apply list_lookup_insert_eq. by apply lookup_lt_Some in Hs. }
  exists c1. split; [| split; [done | split]].
  - unfold Unsubscribe, unsubscribe, closeFunc. by rewrite Hs.
  - intros ch Hch. unfold Recv, recv. rewrite Hp1. simpl.
    destruct (buf (stream s)) as [|d l] eqn:Hb.
    + eauto.
    + destruct Hch as [-> | ?]; [eauto | done].
  - intros ch c' s' rest Hs' Hb He.
    rewrite (Recv_stream_only p ch c' s' None rest) by done. eauto.
Qed.

(** ** Recv after the terminal error *)

(** C5 (as the code has it). Once [Recv] has returned an error, the
    error slot is empty: a later [Recv] returns the next pending result
    with a nil error when the pipe is not empty, and does not return when
    the pipe is empty. *)
Theorem C5_error_returned_once p ch c c1 r e :
  wf c ->
  Recv p ch c = Done (c1, (r, Some e)) ->
  r = None /\
  exists s1,
    heap c1 !! p = Some s1 /\
    buf (err s1) = [] /\
    (forall ch', buf (stream s1) = [] -> Recv p ch' c1 = Blocked WaitRecv) /\
    (forall ch' d rest, buf (stream s1) = d :: rest ->
       exists c2, Recv p ch' c1 = Done (c2, (d, None))).
Proof.
  intros Hwf. unfold Recv at 1.
  destruct (heap c !! p) as [s|] eqn:Hs; [| done].
  destruct (wf_chan c Hwf _ _ Hs) as (C1 & C2 & C3 & C4).
  assert (Hgo : forall x rest0,
    recv (err s) = Some (x, rest0) ->
    (set_heap c (<[p := set_err s rest0]> (heap c)), (None : result, x))
      = (c1, (r, Some e)) ->
    r = None /\
    exists s1,
      heap c1 !! p = Some s1 /\
      buf (err s1) = [] /\
      (forall ch', buf (stream s1) = [] -> Recv p ch' c1 = Blocked WaitRecv) /\
      (forall ch' d rest, buf (stream s1) = d :: rest ->
         exists c2, Recv p ch' c1 = Done (c2, (d, None)))).
  { intros x rest0 Hrecv [= <- <- ->]. split; [done |].
    unfold recv in Hrecv. destruct (buf (err s)) as [|y ys] eqn:Hb; [done |].
    injection Hrecv as -> <-.
    assert (ys = []) as ->.
    { unfold len in C4. rewrite Hb in C4. simpl in C4.
      destruct ys; [done | simpl in C4; lia]. }
    eexists. split.
    { simpl. apply list_lookup_insert_eq. by apply lookup_lt_Some in Hs. }
    simpl. split; [done | split].
    - intros ch' Hempty. eapply Recv_nothing; simpl.
      + apply list_lookup_insert_eq. by apply lookup_lt_Some in Hs.
      + done.
      + done.
    - intros ch' d rest Hb'. eexists. eapply Recv_stream_only; simpl.
      + apply list_lookup_insert_eq. by apply lookup_lt_Some in Hs.
      + done.
      + done. }
  destruct (recv (stream s)) as [[d rest1]|] eqn:R1;
    destruct (recv (err s)) as [[x rest2]|] eqn:R2; try done.
  - destruct ch; [done |]. intros [= Heq1 Heq2 Heq3]. eapply Hgo; eauto.
    by rewrite Heq1, Heq2, Heq3.
  - intros [= Heq1 Heq2 Heq3]. eapply Hgo; eauto.
    by rewrite Heq1, Heq2, Heq3.
Qed.

(** ** The two indices *)

Lemma closeSubscription_keeps reqID e c c' k p :
  wf c ->
  closeSubscription reqID e c = Done c' ->
  subscriptionByRequestID c !! k = Some p ->
  subscriptionByRequestID c' !! k = Some p \/ err_slot_is p e c'.
Proof.
  intros Hwf Hrun Hk.
  destruct (subscriptionByRequestID c !! reqID) as [q|] eqn:Hin.
  2:{ rewrite closeSubscription_absent in Hrun by done.
      injection Hrun as <-. by left. }
  destruct (closeSubscription_present reqID e c q Hwf Hin)
    as (s & c1 & Hs & Hid & Hrun1 & Hh & Hr & _).
  rewrite Hrun1 in Hrun. injection Hrun as <-.
  destruct (decide (k = reqID)) as [-> | Hne].
  - right. assert (q = p) as -> by congruence.
    exists (set_err s (make_chan [e] 1)). split; [| done].
    rewrite Hh. apply list_lookup_insert_eq. by apply lookup_lt_Some in Hs.
  - left. rewrite Hr. by rewrite lookup_delete_ne.
Qed.

Lemma handleMessage_keeps m c c' k p :
  wf c ->
  handleMessage m c = Done c' ->
  subscriptionByRequestID c !! k = Some p ->
  subscriptionByRequestID c' !! k = Some p \/ exists e, err_slot_is p e c'.
Proof.
  intros Hwf Hrun Hk. unfold handleMessage in Hrun.
  destruct (gj_id m) as [i|].
  - unfold handleNewSubscriptionMessage in Hrun.
    destruct (subscriptionByRequestID c !! uint64 i) as [q|]; [| done].
    destruct (heap c !! q) as [s|]; [| done].
    injection Hrun as <-. by left.
  - unfold handleSubscriptionMessage in Hrun.
    destruct (subscriptionByWSSubID c !! _) as [q|].
    2:{ injection Hrun as <-. by left. }
    destruct (heap c !! q) as [s|]; [| done].
    destruct (decodeClientResponse m (reflectType s)) as [v|e|]; [| | done].
    + case_decide as Hfull.
      * destruct (closeSubscription_keeps _ _ _ _ k p Hwf Hrun Hk); eauto.
      * rewrite send_room in Hrun by lia. injection Hrun as <-. by left.
    + destruct (closeSubscription_keeps _ _ _ _ k p Hwf Hrun Hk); eauto.
Qed.

(** C3 (as the code has it).  In every state a run of calls reaches from
    a fresh client:
    - each entry of the request-id index is a Subscription with that
      request id whose error slot is unwritten;
    - [subscribe], when it returns a handle, has put the new Subscription
      into the request-id index and not into the subscription-id index;
    - handling the acknowledgement of a tracked request returns, leaves the
      Subscription in the request-id index and adds it to the
      subscription-id index under the assigned id: it is then in both;
    - a call removes a Subscription from the request-id index only by
      closing it (its error slot is written), or by a [subscribe] that drew
      the same request id and put the new Subscription in its place. *)
Theorem C3_registry_invariant url rnd (calls : list call) c :
  run calls (Dial url rnd) = Done c ->
  (forall k p, subscriptionByRequestID c !! k = Some p ->
     exists s, heap c !! p = Some s /\ ID (req s) = k /\ buf (err s) = []) /\
  (forall ps sm um cm ty p,
     (subscribe ps sm um cm ty c).2 = inl p ->
     live p (subscribe ps sm um cm ty c).1 /\
     ~ in_active p (subscribe ps sm um cm ty c).1) /\
  (forall requestID n p,
     subscriptionByRequestID c !! requestID = Some p ->
     exists c',
       handleNewSubscriptionMessage requestID n c = Done c' /\
       subscriptionByRequestID c' !! requestID = Some p /\
       subscriptionByWSSubID c' !! n = Some p /\
       exists s', heap c' !! p = Some s' /\ subID s' = n /\
                  ID (req s') = requestID) /\
  (forall a c' k p,
     step a c = Done c' ->
     subscriptionByRequestID c !! k = Some p ->
     subscriptionByRequestID c' !! k = Some p \/
     (exists e, err_slot_is p e c') \/
     (exists ps sm um cm ty,
        a = CallSubscribe ps sm um cm ty /\
        subscriptionByRequestID c' !! k = Some (length (heap c)))).
Proof.
  intros Hrun.
  assert (Hwf : wf c) by (eapply run_wf; [apply wf_Dial | exact Hrun]).
  split; [exact (wf_req c Hwf) |]. split; [| split].
  - intros ps sm um cm ty p.
    unfold subscribe, newClientRequest, Int63.
    set (conf := if decide (cm = "") then _ else _).
    simpl. set (r := Build_clientRequest _ _ _ _).
    destruct (encode r) as [e|d]; simpl; [done |].
    destruct (WriteMessage d _) as [k0 [e|]]; simpl; [done |].
    intros [= <-]. split.
    + exists (newSubscription r ty). simpl. split.
      * rewrite lookup_app_r by lia. by rewrite Nat.sub_diag.
      * apply lookup_insert_eq.
    + intros (k & Hk). simpl in Hk.
      destruct (wf_sub c Hwf _ _ Hk) as [s Hs].
      apply lookup_lt_Some in Hs. lia.
  - intros requestID n p Hk.
    destruct (wf_req c Hwf _ _ Hk) as (s & Hs & Hid & _).
    unfold handleNewSubscriptionMessage. rewrite Hk, Hs.
    eexists. split; [reflexivity |]. simpl.
    split; [done |]. split; [apply lookup_insert_eq |].
    exists (set_subID s n). split; [| done].
    apply list_lookup_insert_eq. by apply lookup_lt_Some in Hs.
  - intros a c' k p Hstep Hk.
    destruct a as [ps sm um cm ty | m | reqID e0 | e | p0 ch | p0];
      simpl in Hstep.
    + injection Hstep as <-.
      unfold subscribe, newClientRequest, Int63.
      set (conf := if decide (cm = "") then _ else _).
      simpl. set (r := Build_clientRequest _ _ _ _).
      destruct (encode r) as [e|d]; simpl; [by left |].
      destruct (decide (ID r = k)) as [Heq | Hne].
      * right; right. exists ps, sm, um, cm, ty.
        split; [done |].
        destruct (WriteMessage d _) as [k0 [e|]]; simpl;
          rewrite <- Heq; apply lookup_insert_eq.
      * left. destruct (WriteMessage d _) as [k0 [e|]]; simpl;
          by rewrite lookup_insert_ne.
    + destruct (handleMessage_keeps m c c' k p Hwf Hstep Hk); eauto.
    + destruct (closeSubscription_keeps _ _ _ _ k p Hwf Hstep Hk); eauto.
    + right; left. exists (Some e).
      destruct (closeAllSubscription_in_spec _ e c Hwf (reflexivity _))
        as (c2 & Hrun2 & _ & _ & _ & _ & Hget).
      destruct (wf_range_order c _ Hwf (reflexivity _)) as (_ & Hmem & _).
      unfold closeAllSubscription in Hstep. rewrite Hrun2 in Hstep.
      injection Hstep as <-.
      destruct (wf_req c Hwf _ _ Hk) as (s & Hs & _ & _).
      exists (set_err s (make_chan [Some e] 1)). split; [| done].
      rewrite (Hget _ _ Hs). rewrite decide_True; [done |].
      apply Hmem. by exists k.
    + destruct (Recv p0 ch c) as [[c1 r]| |] eqn:HR; simpl in Hstep; try done.
      injection Hstep as <-. left.
      unfold Recv in HR. destruct (heap c !! p0) as [s|]; [| done].
      destruct (recv (stream s)) as [[d rest1]|];
        destruct (recv (err s)) as [[x rest2]|]; try done;
        try destruct ch; injection HR as <- _; done.
    + unfold Unsubscribe, unsubscribe, closeFunc in Hstep.
      destruct (heap c !! p0) as [s|]; [| done].
      destruct (closeSubscription_keeps _ _ _ _ k p Hwf Hstep Hk); eauto.
Qed.

(** ** Failure paths of subscribe and of acknowledgements *)

(** An acknowledgement for a request id the index does not hold. *)
Lemma handleNewSubscriptionMessage_unknown requestID n c :
  subscriptionByRequestID c !! requestID = None ->
  handleNewSubscriptionMessage requestID n c = Panic.
Proof. intros Hno. unfold handleNewSubscriptionMessage. by rewrite Hno. Qed.

(** When the request cannot be encoded, [subscribe] returns the error
    and has touched neither the indices, nor the objects, nor the
    connection. *)
Lemma subscribe_encode_failure ps sm um cm ty c e :
  (forall r, Method r = sm -> json_Marshal r = inl e) ->
  (subscribe ps sm um cm ty c).2 =
    inr (Wrapf "subscribe: unable to encode subsciption request: %w"
           (Wrapf "encode request: json marshall: %w" e)) /\
  subscriptionByRequestID (subscribe ps sm um cm ty c).1
    = subscriptionByRequestID c /\
  subscriptionByWSSubID (subscribe ps sm um cm ty c).1
    = subscriptionByWSSubID c /\
  heap (subscribe ps sm um cm ty c).1 = heap c /\
  conn (subscribe ps sm um cm ty c).1 = conn c.
Proof.
  intros Hfail. unfold subscribe, newClientRequest, Int63, encode.
  simpl. by rewrite Hfail.
Qed.

(** When the write fails, [subscribe] returns the error and the new
    Subscription stays in the request-id index. *)
Lemma subscribe_write_failure ps sm um cm ty c e :
  (forall r, exists d, json_Marshal r = inr d) ->
  broken (conn c) = Some e ->
  (subscribe ps sm um cm ty c).2 =
    inr (Wrapf "unable to write request: %w" e) /\
  exists k,
    subscriptionByRequestID (subscribe ps sm um cm ty c).1 !! k
      = Some (length (heap c)) /\
    heap (subscribe ps sm um cm ty c).1 !! length (heap c)
      = Some (newSubscription
                (newClientRequest ps sm
                   (if decide (cm = "")
                    then {[ "encoding" := "jsonParsed" ]}
                    else <[ "commitment" := cm ]>
                           {[ "encoding" := "jsonParsed" ]}) c).1 ty).
Proof.
  intros Hok Hdown. unfold subscribe, newClientRequest, Int63, encode.
  set (conf := if decide (cm = "") then _ else _).
  simpl. set (r := Build_clientRequest _ _ _ _).
  destruct (Hok r) as [d ->]. unfold WriteMessage. simpl. rewrite Hdown. simpl.
  split; [done |]. exists (ID r). split.
  - apply lookup_insert_eq.
  - rewrite lookup_app_r by lia. by rewrite Nat.sub_diag.
Qed.

End Properties.

(** * Further properties of the client *)

Section Further.
Context `{Codec}.

Implicit Types (c : WSClient) (s : Subscription) (p q : ptr).

(** ** Decoding a frame *)

(** X1. [decodeClientResponse] yields a value exactly when the envelope
    parses to a non-nil response without an error member whose params
    carry a result that unmarshals into the expected type.  When an error
    member is present it wins over any params: the outcome is a
    [json2.Error], with code [E_SERVER] and the raw text as message when
    the error payload itself does not parse. *)
Theorem X1_decode_outcomes m ty :
  (forall v, decodeClientResponse m ty = DecOk v <->
     exists w ps raw,
       json_Decode m = inr (Some w) /\ resp_Error w = None /\
       resp_Params w = Some ps /\ Result ps = Some raw /\
       json_Unmarshal ty raw = inr v) /\
  (forall w raw,
     json_Decode m = inr (Some w) -> resp_Error w = Some raw ->
     decodeClientResponse m ty =
       DecErr (match json2_Unmarshal raw with
               | Some (code, msg) => Json2Error code msg
               | None => Json2Error E_SERVER raw
               end)).
Proof.
  split.
  - intros v. unfold decodeClientResponse. split.
    + destruct (json_Decode m) as [e|[w|]]; try done.
      destruct (resp_Error w) as [raw|] eqn:He.
      { destruct (json2_Unmarshal raw) as [[? ?]|]; done. }
      destruct (resp_Params w) as [ps|] eqn:Hp; [| done].
      destruct (Result ps) as [raw|] eqn:Hr; [| done].
      destruct (json_Unmarshal ty raw) as [e|v'] eqn:Hu; [done |].
      intros [= ->]. exists w, ps, raw. done.
    + intros (w & ps & raw & -> & -> & -> & -> & ->). done.
  - intros w raw Hd He. unfold decodeClientResponse. rewrite Hd, He.
    destruct (json2_Unmarshal raw) as [[? ?]|]; done.
Qed.

(** X2. A frame without id whose params carry no result, routed to a
    Subscription of the active index, ends the reader loop in a panic
    (the nil [Result] pointer is dereferenced): the frames after it are
    not handled and no Subscription is told. *)
Theorem X2_missing_result_panics n m c p s w ps (rest : list read) :
  subscriptionByWSSubID c !! n = Some p ->
  heap c !! p = Some s ->
  gj_id m = None ->
  uint64 (gj_params_subscription m) = n ->
  json_Decode m = inr (Some w) ->
  resp_Error w = None ->
  resp_Params w = Some ps ->
  Result ps = None ->
  receiveMessages (ReadMsg m :: rest) c = Panic.
Proof.
  intros Hn Hs Hid Hsub Hd He Hp Hr. simpl.
  unfold handleMessage. rewrite Hid, Hsub.
  unfold handleSubscriptionMessage. rewrite Hn, Hs.
  unfold decodeClientResponse. by rewrite Hd, He, Hp, Hr.
Qed.

(** ** Routing *)

(** X3. Frames without id whose subscription id is not in the active
    index are dropped: handling any number of them leaves the client as it
    was. *)
Theorem X3_unroutable_frames_dropped (ms : list message) c :
  Forall (fun m => gj_id m = None /\
                   subscriptionByWSSubID c !! uint64 (gj_params_subscription m)
                   = None) ms ->
  handleMessages ms c = Done c.
Proof.
  induction 1 as [|m ms [Hid Hno] _ IH]; simpl; [done |].
  unfold handleMessage, handleSubscriptionMessage. rewrite Hid, Hno. simpl.
  exact IH.
Qed.


(** X11. A notification that arrives after its Subscription was closed
    is dropped: once [closeSubscription] has run on a live Subscription
    registered under its own subscription id, a frame for that id leaves
    the client, and so the closed Subscription's pipe, as it is. *)
Theorem X11_late_notification_dropped n m c p s e :
  wf c ->
  subscriptionByWSSubID c !! n = Some p ->
  heap c !! p = Some s ->
  subID s = n ->
  subscriptionByRequestID c !! ID (req s) = Some p ->
  exists c1,
    closeSubscription (ID (req s)) e c = Done c1 /\
    handleSubscriptionMessage n m c1 = Done c1.
Proof.
  intros Hwf Hn Hs Hid Hlive.
  destruct (closeSubscription_present (ID (req s)) e c p Hwf Hlive)
    as (s0 & c1 & Hs0 & _ & Hrun & _ & _ & Hsub & _).
  assert (s0 = s) as -> by congruence.
  exists c1. split; [done |].
  unfold handleSubscriptionMessage.
  by rewrite Hsub, Hid, lookup_delete_eq.
Qed.

(** ** The reader loop *)

(** X9. The reader loop returns only on a read error: over an inbound
    sequence made of frames alone it never returns, it ends waiting (for
    the next read, once every frame has been handled) or in a panic. *)
Theorem X9_loop_returns_only_on_read_error (ms : list message) c :
  (exists w, receiveMessages (ReadMsg <$> ms) c = Blocked w) \/
  receiveMessages (ReadMsg <$> ms) c = Panic.
Proof.
  revert c. induction ms as [|m ms IH]; intros c; simpl; [by left; eexists |].
  destruct (handleMessage m c) as [c1| |]; simpl;
    [apply IH | by right | by left; eexists].
Qed.

(** ** closeSubscription and the connection *)

(** X5. The local cleanup of [closeSubscription] does not depend on the
    connection: whatever connection the client holds, the same error is
    pushed and the same entries are removed; and when the link is down the
    failed unsubscribe request is swallowed and nothing is written. *)
Theorem X5_close_independent_of_link reqID e c k c1 :
  closeSubscription reqID e c = Done c1 ->
  exists c2,
    closeSubscription reqID e (set_conn c k) = Done c2 /\
    heap c2 = heap c1 /\
    subscriptionByRequestID c2 = subscriptionByRequestID c1 /\
    subscriptionByWSSubID c2 = subscriptionByWSSubID c1 /\
    (is_Some (broken k) -> conn c2 = k).
Proof.
  unfold closeSubscription. simpl.
  destruct (subscriptionByRequestID c !! reqID) as [p|].
  2:{ intros [= <-]. eexists. split; [reflexivity |]. done. }
  destruct (heap c !! p) as [s|]; [| done].
  destruct (send (err s) e) as [ch|]; [| done].
  set (ca := set_heap c _). set (cb := set_heap (set_conn c k) _).
  destruct (rpcUnsubscribe_frame (subID s) (unsubscriptionMethod s) ca)
    as (Hha & Hra & Hsa).
  destruct (rpcUnsubscribe_frame (subID s) (unsubscriptionMethod s) cb)
    as (Hhb & Hrb & Hsb).
  assert (Hk : is_Some (broken k) ->
    conn (rpcUnsubscribe (subID s) (unsubscriptionMethod s) cb).2 = k).
  { intros [x Hx]. unfold rpcUnsubscribe, newClientRequest, Int63; simpl.
    destruct (encode _) as [?|d]; simpl; [done |].
    unfold WriteMessage. rewrite Hx. simpl. done. }
  destruct (rpcUnsubscribe _ _ ca) as [oa c2a].
  destruct (rpcUnsubscribe _ _ cb) as [ob c2b]. simpl in *.
  intros [= <-]. eexists. split; [reflexivity |]. simpl.
  rewrite Hha, Hra, Hsa, Hhb, Hrb, Hsb. done.
Qed.

(** ** subscribe *)

(** X17. When the request cannot be encoded, [subscribe] returns the
    encode error wrapped twice and the client is as before except for the
    one draw taken from the random source: no Subscription object is
    created, no index is touched, nothing is written. *)
Theorem X17_encode_failure_leaves_client ps sm um cm ty c e :
  json_Marshal
    (newClientRequest ps sm
       (if decide (cm = "")
        then {[ "encoding" := "jsonParsed" ]}
        else <[ "commitment" := cm ]> {[ "encoding" := "jsonParsed" ]}) c).1
    = inl e ->
  subscribe ps sm um cm ty c =
    (set_rand_pos c (S (rand_pos c)),
     inr (Wrapf "subscribe: unable to encode subsciption request: %w"
            (Wrapf "encode request: json marshall: %w" e))).
Proof.
  unfold subscribe, newClientRequest, Int63, encode. simpl.
  intros ->. done.
Qed.

(** What a successful [subscribe] has done. *)
Lemma subscribe_inl ps sm um cm ty c c' q :
  subscribe ps sm um cm ty c = (c', inl q) ->
  q = length (heap c) /\
  heap c' = heap c ++ [newSubscription (subscribe_request ps sm cm c) ty] /\
  subscriptionByRequestID c'
    = <[ID (subscribe_request ps sm cm c) := q]> (subscriptionByRequestID c) /\
  subscriptionByWSSubID c' = subscriptionByWSSubID c /\
  broken (conn c) = None /\
  exists d, json_Marshal (subscribe_request ps sm cm c) = inr d /\
            written (conn c') = written (conn c) ++ [d].
Proof.
  unfold subscribe, subscribe_request, subscribe_conf, newClientRequest,
    Int63, encode.
  set (conf := if decide (cm = "") then _ else _).
  simpl. set (r := Build_clientRequest _ _ _ _).
  destruct (json_Marshal r) as [e|d] eqn:Hm; [done |].
  unfold WriteMessage. simpl.
  destruct (broken (conn c)) as [e|] eqn:Hb; simpl; [done |].
  intros [= <- <-]. simpl. repeat split; try done. by exists d.
Qed.

Lemma subscribe_request_ID ps sm cm c :
  ID (subscribe_request ps sm cm c) = rand_src c (rand_pos c) mod 2 ^ 63 /\
  0 <= ID (subscribe_request ps sm cm c) < 2 ^ 63.
Proof.
  unfold subscribe_request, newClientRequest, Int63, uint64. simpl.
  pose proof (Z.mod_pos_bound (rand_src c (rand_pos c)) (2 ^ 63)) as Hb.
  assert (0 < 2 ^ 63) as Hpos by done.
  specialize (Hb Hpos).
  assert (2 ^ 63 < 2 ^ 64) as Hlt by done.
  rewrite Z.mod_small by lia. split; [done | lia].
Qed.

(** X7. A [subscribe] whose request encodes, on a working connection,
    returns a fresh handle; the new Subscription is appended to the
    objects with subscription id 0, an empty pipe and an empty error slot,
    the request-id index maps the request id (a value below 2^63) to it,
    the subscription-id index is untouched, exactly the encoded request is
    written, and [Recv] on the handle waits.  The request carries the
    caller's params followed by a configuration map with the encoding
    "jsonParsed" and the commitment only when one was given. *)
Theorem X7_subscribe_registers ps sm um cm ty c d :
  json_Marshal (subscribe_request ps sm cm c) = inr d ->
  broken (conn c) = None ->
  let r := subscribe_request ps sm cm c in
  let c' := (subscribe ps sm um cm ty c).1 in
  (subscribe ps sm um cm ty c).2 = inl (length (heap c)) /\
  heap c' = heap c ++ [newSubscription r ty] /\
  subscriptionByRequestID c' =
    <[ID r := length (heap c)]> (subscriptionByRequestID c) /\
  subscriptionByWSSubID c' = subscriptionByWSSubID c /\
  written (conn c') = written (conn c) ++ [d] /\
  0 <= ID r < 2 ^ 63 /\
  Method r = sm /\
  Params r = ps ++ [PMap (subscribe_conf cm)] /\
  subscribe_conf cm !! "encoding" = Some "jsonParsed" /\
  subscribe_conf cm !! "commitment" = (if decide (cm = "") then None else Some cm) /\
  forall ch, Recv (length (heap c)) ch c' = Blocked WaitRecv.
Proof.
  intros Hm Hb r c'.
  assert (Hrun : exists cx,
    subscribe ps sm um cm ty c = (cx, inl (length (heap c)))).
  { revert Hm. unfold subscribe, subscribe_request, subscribe_conf,
      newClientRequest, Int63, encode.
    set (conf := if decide (cm = "") then _ else _).
    simpl. intros ->. unfold WriteMessage. simpl. rewrite Hb. eauto. }
  destruct Hrun as [cx Hrun].
  destruct (subscribe_inl _ _ _ _ _ _ _ _ Hrun)
    as (_ & Hh & Hr & Hs & _ & d' & Hm' & Hw).
  fold r in Hh, Hr, Hm'.
  unfold r in Hm'. rewrite Hm in Hm'. injection Hm' as <-.
  subst c'. rewrite Hrun. simpl.
  split; [done |]. split; [done |]. split; [done |]. split; [done |].
  split; [done |]. split; [exact (proj2 (subscribe_request_ID ps sm cm c)) |].
  split; [done |]. split; [done |].
  split.
  { unfold subscribe_conf. case_decide; [done |].
    by rewrite lookup_insert_ne. }
  split.
  { unfold subscribe_conf. case_decide; [done |].
    by rewrite lookup_insert_eq. }
  intros ch. apply (Recv_nothing _ ch cx (newSubscription r ty)); [| done | done].
  rewrite Hh, lookup_app_r by lia. by rewrite Nat.sub_diag.
Qed.

(** X8. A [subscribe] that draws the request id of a Subscription still
    in the request-id index takes over its entry: the new handle differs
    from the old one, the old Subscription is in the index no more, and
    [Unsubscribe] on the old handle closes the new Subscription (the nil
    error goes into the new one's slot) while the old object stays as it
    was. *)
Theorem X8_request_id_collision ps sm um cm ty c c' p q :
  wf c ->
  subscribe ps sm um cm ty c = (c', inl q) ->
  subscriptionByRequestID c !! ID (subscribe_request ps sm cm c) = Some p ->
  q <> p /\
  subscriptionByRequestID c' !! ID (subscribe_request ps sm cm c) = Some q /\
  ~ in_pending p c' /\
  exists c'',
    Unsubscribe p c' = Done c'' /\
    err_slot_is q None c'' /\
    heap c'' !! p = heap c !! p.
Proof.
  intros Hwf Hrun Hold.
  set (r := subscribe_request ps sm cm c) in *.
  destruct (subscribe_inl _ _ _ _ _ _ _ _ Hrun) as (-> & Hh & Hr & Hs & _).
  fold r in Hh, Hr.
  destruct (wf_req c Hwf _ _ Hold) as (sp & Hsp & Hid & _).
  assert (Hlt : (p < length (heap c))%nat) by (by apply lookup_lt_Some in Hsp).
  assert (Hwf' : wf c').
  { replace c' with (subscribe ps sm um cm ty c).1 by (by rewrite Hrun).
    by apply subscribe_wf. }
  assert (Hnew : subscriptionByRequestID c' !! ID r = Some (length (heap c))).
  { rewrite Hr. apply lookup_insert_eq. }
  split; [lia |]. split; [done |]. split.
  - intros (k & Hk). rewrite Hr in Hk.
    apply lookup_insert_Some in Hk as [[_ Heq] | [Hne Hk]]; [lia |].
    apply Hne. exact (wf_req_inj c (ID r) k p Hwf Hold Hk).
  - assert (Hp' : heap c' !! p = Some sp).
    { rewrite Hh. by apply lookup_app_l_Some. }
    destruct (closeSubscription_present (ID r) None c' _ Hwf' Hnew)
      as (sq & c'' & Hsq & _ & Hclose & Hh'' & _).
    exists c''. split.
    { unfold Unsubscribe, unsubscribe, closeFunc. by rewrite Hp', Hid. }
    split.
    + exists (set_err sq (make_chan [None] 1)). split; [| done].
      rewrite Hh''. apply list_lookup_insert_eq. by apply lookup_lt_Some in Hsq.
    + rewrite Hh'', list_lookup_insert_ne by lia. by rewrite Hp'.
Qed.

(** X13. The whole path of one result: after a successful [subscribe],
    the acknowledgement carrying its request id followed by a notification
    for the subscription id the acknowledgement assigned, whose payload
    decodes to [v], are both handled, the Subscription has that
    subscription id, and [Recv] on the handle returns [v] with a nil
    error. *)
Theorem X13_subscribe_ack_notify_recv ps sm um cm ty c c1 p ma mn i v ch :
  subscribe ps sm um cm ty c = (c1, inl p) ->
  gj_id ma = Some i ->
  uint64 i = ID (subscribe_request ps sm cm c) ->
  gj_id mn = None ->
  uint64 (gj_params_subscription mn) = uint64 (gj_result ma) ->
  decodeClientResponse mn ty = DecOk v ->
  exists c3 c4 s3,
    handleMessages [ma; mn] c1 = Done c3 /\
    heap c3 !! p = Some s3 /\
    subID s3 = uint64 (gj_result ma) /\
    Recv p ch c3 = Done (c4, (Some v, None)).
Proof.
  intros Hrun Hida Hi Hidn Hsub Hdec.
  set (r := subscribe_request ps sm cm c) in *.
  destruct (subscribe_inl _ _ _ _ _ _ _ _ Hrun) as (-> & Hh & Hr & Hs & _).
  fold r in Hh, Hr.
  set (p := length (heap c)) in *.
  set (n := uint64 (gj_result ma)) in *.
  assert (Hp1 : heap c1 !! p = Some (newSubscription r ty)).
  { rewrite Hh, lookup_app_r by (unfold p; lia).
    unfold p. by rewrite Nat.sub_diag. }
  assert (Hlt : (p < length (heap c1))%nat) by (by apply lookup_lt_Some in Hp1).
  simpl. unfold handleMessage at 1. rewrite Hida, Hi.
  unfold handleNewSubscriptionMessage. rewrite Hr, lookup_insert_eq, Hp1. simpl.
  unfold handleMessage. rewrite Hidn, Hsub.
  set (s2 := set_subID (newSubscription r ty) n).
  set (c2 := set_maps _ _ _).
  assert (Hp2 : heap c2 !! p = Some s2).
  { simpl. by apply list_lookup_insert_eq. }
  rewrite (handleSubscriptionMessage_push n mn c2 p s2 v); simpl.
  - set (s3 := set_stream s2 _).
    eexists _, _, s3. split; [reflexivity |]. simpl.
    assert (Hp3 : <[p := s3]> (<[p := s2]> (heap c1)) !! p = Some s3).
    { apply list_lookup_insert_eq. by rewrite length_insert. }
    split; [done |]. split; [done |].
    by rewrite (Recv_stream_only p ch _ s3 (Some v) []).
  - apply lookup_insert_eq.
  - by apply list_lookup_insert_eq.
  - done.
  - unfold len. simpl. lia.
Qed.

(** ** Acknowledgements *)

(** X12. Acknowledgements of two different tracked requests that assign
    different subscription ids can be handled in either order: both orders
    return, with the same client. *)
Theorem X12_acknowledgements_commute r1 r2 n1 n2 c :
  wf c ->
  r1 <> r2 ->
  n1 <> n2 ->
  is_Some (subscriptionByRequestID c !! r1) ->
  is_Some (subscriptionByRequestID c !! r2) ->
  exists c',
    (c1 <-- handleNewSubscriptionMessage r1 n1 c ;;
     handleNewSubscriptionMessage r2 n2 c1) = Done c' /\
    (c2 <-- handleNewSubscriptionMessage r2 n2 c ;;
     handleNewSubscriptionMessage r1 n1 c2) = Done c'.
Proof.
  intros Hwf Hr Hn [p1 H1] [p2 H2].
  destruct (wf_req c Hwf _ _ H1) as (s1 & Hs1 & _).
  destruct (wf_req c Hwf _ _ H2) as (s2 & Hs2 & _).
  assert (Hp : p1 <> p2).
  { intros ->. apply Hr. eapply wf_req_inj; eauto. }
  unfold handleNewSubscriptionMessage. rewrite H1, H2, Hs1, Hs2. simpl.
  rewrite H1, H2.
  rewrite !list_lookup_insert_ne by done. rewrite Hs1, Hs2.
  eexists. split; [reflexivity |].
  unfold set_maps, set_heap. simpl.
  rewrite (insert_insert_ne (subscriptionByWSSubID c) n1 n2) by done.
  by rewrite (list_insert_insert_ne (heap c) p1 p2).
Qed.

(** X16. A second acknowledgement of a request, assigning another
    subscription id, leaves the Subscription routed under the first id as
    well; closing the Subscription afterwards removes only the entry of
    the latest id, so the first id keeps pointing to the closed
    Subscription. *)
Theorem X16_reacknowledgement_leaves_stale_entry r n1 n2 c p e :
  wf c ->
  subscriptionByRequestID c !! r = Some p ->
  subscriptionByWSSubID c !! n1 = Some p ->
  n1 <> n2 ->
  exists c1 c2,
    handleNewSubscriptionMessage r n2 c = Done c1 /\
    subscriptionByWSSubID c1 !! n1 = Some p /\
    subscriptionByWSSubID c1 !! n2 = Some p /\
    closeSubscription r e c1 = Done c2 /\
    err_slot_is p e c2 /\
    subscriptionByRequestID c2 !! r = None /\
    subscriptionByWSSubID c2 !! n2 = None /\
    subscriptionByWSSubID c2 !! n1 = Some p.
Proof.
  intros Hwf Hr Hn1 Hne.
  destruct (wf_req c Hwf _ _ Hr) as (s & Hs & Hid & _).
  assert (Hack : handleNewSubscriptionMessage r n2 c =
    Done (set_maps (set_heap c (<[p := set_subID s n2]> (heap c)))
            (subscriptionByRequestID c)
            (<[n2 := p]> (subscriptionByWSSubID c)))).
  { unfold handleNewSubscriptionMessage. by rewrite Hr, Hs. }
  set (c1 := set_maps _ _ _) in Hack.
  assert (Hwf1 : wf c1) by (eapply handleNewSubscriptionMessage_wf; eauto).
  destruct (closeSubscription_present r e c1 p Hwf1 Hr)
    as (s1 & c2 & Hs1 & _ & Hclose & Hh2 & Hr2 & Hs2 & _).
  assert (s1 = set_subID s n2) as ->.
  { simpl in Hs1. rewrite list_lookup_insert_eq in Hs1
      by (by apply lookup_lt_Some in Hs). congruence. }
  exists c1, c2. split; [done |]. simpl.
  split; [by rewrite lookup_insert_ne |].
  split; [by rewrite lookup_insert_eq |].
  split; [done |]. split.
  { exists (set_err (set_subID s n2) (make_chan [e] 1)). split; [| done].
    rewrite Hh2. apply list_lookup_insert_eq. simpl. rewrite length_insert.
    by apply lookup_lt_Some in Hs. }
  rewrite Hr2, Hs2. simpl.
  split; [apply lookup_delete_eq |].
  split; [apply lookup_delete_eq |].
  rewrite lookup_delete_ne by done. by rewrite lookup_insert_ne.
Qed.

(** ** closeAllSubscription *)

(** X10. On a well-formed client the order in which the [range] of
    [closeAllSubscription] visits the request-id index is immaterial: any
    two orders return, with the same client. *)
Theorem X10_range_order_irrelevant (o1 o2 : list (Z * ptr)) e c :
  wf c ->
  o1 ≡ₚ map_to_list (subscriptionByRequestID c) ->
  o2 ≡ₚ map_to_list (subscriptionByRequestID c) ->
  exists c',
    closeAllSubscription_in o1 e c = Done c' /\
    closeAllSubscription_in o2 e c = Done c'.
Proof.
  intros Hwf H1 H2.
  destruct (closeAllSubscription_in_spec o1 e c Hwf H1) as (c' & Hrun & _).
  exists c'. split; [done |].
  rewrite (closeAllSubscription_order o2 e c Hwf H2).
  by rewrite <- (closeAllSubscription_order o1 e c Hwf H1).
Qed.

(** ** Invariants of the Subscription objects *)

Section ObjectInvariant.
Variable P : Subscription -> Prop.
Hypothesis P_set_err : forall s ch, P s -> P (set_err s ch).
Hypothesis P_set_stream_tail : forall s d rest,
  P s -> buf (stream s) = d :: rest ->
  P (set_stream s (make_chan rest (cap (stream s)))).
Hypothesis P_set_stream_push : forall s (d : result),
  P s -> (len (stream s) < cap (stream s))%nat ->
  P (set_stream s (make_chan (buf (stream s) ++ [d]) (cap (stream s)))).
Hypothesis P_set_subID : forall s n, P s -> P (set_subID s n).
Hypothesis P_new : forall r ty, P (newSubscription r ty).

Lemma closeSubscription_Forall reqID e c c' :
  closeSubscription reqID e c = Done c' ->
  Forall P (heap c) -> Forall P (heap c').
Proof.
  unfold closeSubscription.
  destruct (subscriptionByRequestID c !! reqID) as [q|]; [| by intros [= <-]].
  destruct (heap c !! q) as [sq|] eqn:Hq; [| done].
  destruct (send (err sq) e) as [ch|]; [| done].
  set (c1 := set_heap c _).
  destruct (rpcUnsubscribe_frame (subID sq) (unsubscriptionMethod sq) c1)
    as (Hh & _).
  destruct (rpcUnsubscribe _ _ c1) as [o c2]; simpl in *.
  intros [= <-] Hall. simpl. rewrite Hh.
  apply Forall_insert; [done |]. apply P_set_err.
  eapply Forall_lookup_1; eauto.
Qed.

Lemma push_err_all_Forall (order : list (Z * ptr)) e : forall h h',
  push_err_all order e h = Done h' -> Forall P h -> Forall P h'.
Proof.
  induction order as [|[k q] rest IH]; intros h h'; simpl.
  - by intros [= <-].
  - destruct (h !! q) as [sq|] eqn:Hq; [| done].
    destruct (send (err sq) (Some e)) as [ch|]; [| done].
    intros Hrun Hall. apply (IH _ _ Hrun).
    apply Forall_insert; [done |]. apply P_set_err.
    eapply Forall_lookup_1; eauto.
Qed.

(** A property of Subscription objects that the field updates keep and
    that fresh objects have is kept by every call. *)
Lemma step_Forall a c c' :
  step a c = Done c' -> Forall P (heap c) -> Forall P (heap c').
Proof.
  destruct a as [ps sm um cm ty | m | reqID e0 | e | p0 ch | p0]; simpl.
  - intros [= <-] Hall.
    unfold subscribe, newClientRequest, Int63.
    set (conf := if decide (cm = "") then _ else _).
    simpl. set (r := Build_clientRequest _ _ _ _).
    destruct (encode r) as [e|d]; simpl; [done |].
    destruct (WriteMessage d _) as [k [e|]]; simpl;
      (apply Forall_app; split; [done | by constructor]).
  - unfold handleMessage. destruct (gj_id m) as [i|].
    + unfold handleNewSubscriptionMessage.
      destruct (subscriptionByRequestID c !! uint64 i) as [q|]; [| done].
      destruct (heap c !! q) as [sq|] eqn:Hq; [| done].
      intros [= <-] Hall. simpl.
      apply Forall_insert; [done |]. apply P_set_subID.
      eapply Forall_lookup_1; eauto.
    + unfold handleSubscriptionMessage.
      destruct (subscriptionByWSSubID c !! _) as [q|]; [| by intros [= <-]].
      destruct (heap c !! q) as [sq|] eqn:Hq; [| done].
      destruct (decodeClientResponse m (reflectType sq)) as [v|e|]; [| | done].
      * case_decide as Hfull; [apply closeSubscription_Forall |].
        rewrite send_room by lia. intros [= <-] Hall. simpl.
        apply Forall_insert; [done |]. apply P_set_stream_push; [| lia].
        eapply Forall_lookup_1; eauto.
      * apply closeSubscription_Forall.
  - apply closeSubscription_Forall.
  - unfold closeAllSubscription, closeAllSubscription_in.
    destruct (push_err_all _ e (heap c)) as [h'| |] eqn:Hpush; try done.
    simpl. intros [= <-] Hall. simpl. eapply push_err_all_Forall; eauto.
  - destruct (Recv p0 ch c) as [[c1 r]| |] eqn:HR; simpl; try done.
    intros [= <-] Hall. unfold Recv, recv in HR.
    destruct (heap c !! p0) as [s0|] eqn:H0; [| done].
    assert (P0 : P s0) by (eapply Forall_lookup_1; eauto).
    destruct (buf (stream s0)) as [|d rest1] eqn:Hb1;
      destruct (buf (err s0)) as [|x rest2] eqn:Hb2; try done;
      try destruct ch; injection HR as <- _; simpl;
      apply Forall_insert; eauto.
  - unfold Unsubscribe, unsubscribe, closeFunc.
    destruct (heap c !! p0) as [s0|]; [| done].
    apply closeSubscription_Forall.
Qed.

Lemma run_Forall (calls : list call) : forall c c',
  run calls c = Done c' -> Forall P (heap c) -> Forall P (heap c').
Proof.
  induction calls as [|a calls IH]; intros c c'; simpl.
  - by intros [= <-].
  - destruct (step a c) as [c1| |] eqn:H1; simpl; try done.
    intros Hrun Hall. apply (IH _ _ Hrun). eapply step_Forall; eauto.
Qed.

End ObjectInvariant.

(** X14. In every state a run of calls reaches from a fresh client,
    every Subscription object has a delivery pipe of capacity 200 holding
    at most 200 results and an error slot of capacity 1 holding at most
    one error. *)
Theorem X14_channel_bounds url rnd (calls : list call) c p s :
  run calls (Dial url rnd) = Done c ->
  heap c !! p = Some s ->
  cap (stream s) = 200%nat /\ (length (buf (stream s)) <= 200)%nat /\
  cap (err s) = 1%nat /\ (length (buf (err s)) <= 1)%nat.
Proof.
  intros Hrun Hs.
  assert (Hwf : wf c) by (eapply run_wf; [apply wf_Dial | exact Hrun]).
  destruct (wf_chan c Hwf _ _ Hs) as (C1 & C2 & C3 & C4).
  unfold len in *. done.
Qed.

(** X6. [subscribe] never stores the unsubscribe method it is given: in
    every state a run of calls reaches from a fresh client, every
    Subscription has the empty unsubscribe method, and the unsubscribe
    request that [closeSubscription] writes on a working connection is the
    encoding of a request with the empty method name, the subscription id
    and an empty configuration map as params. *)
Theorem X6_unsubscribe_request_has_no_method url rnd (calls : list call)
    c reqID p s e d :
  run calls (Dial url rnd) = Done c ->
  subscriptionByRequestID c !! reqID = Some p ->
  heap c !! p = Some s ->
  broken (conn c) = None ->
  json_Marshal {| Version := "2.0"; Method := "";
                  Params := [PUint64 (subID s); PMap ∅];
                  ID := uint64 (rand_src c (rand_pos c) mod 2 ^ 63) |}
    = inr d ->
  (forall q sq, heap c !! q = Some sq -> unsubscriptionMethod sq = "") /\
  exists c',
    closeSubscription reqID e c = Done c' /\
    written (conn c') = written (conn c) ++ [d].
Proof.
  intros Hrun Hr Hs Hb Hm.
  assert (Hwf : wf c) by (eapply run_wf; [apply wf_Dial | exact Hrun]).
  assert (Hall : Forall (fun sq => unsubscriptionMethod sq = "") (heap c)).
  { eapply (run_Forall (fun sq => unsubscriptionMethod sq = ""));
      [done | done | done | done | done | exact Hrun | by constructor]. }
  assert (Hmeth : forall q sq, heap c !! q = Some sq ->
                    unsubscriptionMethod sq = "").
  { intros q sq Hq. by eapply (Forall_lookup_1 _ _ _ _ Hall). }
  split; [exact Hmeth |].
  destruct (wf_req c Hwf _ _ Hr) as (s0 & Hs0 & _ & Hempty).
  assert (s0 = s) as -> by congruence.
  destruct (wf_chan c Hwf _ _ Hs) as (_ & Hcap & _).
  unfold closeSubscription. rewrite Hr, Hs.
  rewrite (send_empty_slot _ e Hempty Hcap).
  rewrite (Hmeth _ _ Hs).
  unfold rpcUnsubscribe, newClientRequest, Int63, encode. simpl.
  rewrite Hm. unfold WriteMessage. simpl. rewrite Hb. simpl.
  eexists. split; [reflexivity |]. done.
Qed.

(** ** Subscriptions outside the indices *)



(** What [subscribe] does to the objects and the indices, whether it
    succeeds or not. *)
Lemma subscribe_effect ps sm um cm ty c :
  (heap (subscribe ps sm um cm ty c).1 = heap c /\
   subscriptionByRequestID (subscribe ps sm um cm ty c).1
     = subscriptionByRequestID c
   \/
   heap (subscribe ps sm um cm ty c).1
     = heap c ++ [newSubscription (subscribe_request ps sm cm c) ty] /\
   subscriptionByRequestID (subscribe ps sm um cm ty c).1
     = <[ID (subscribe_request ps sm cm c) := length (heap c)]>
         (subscriptionByRequestID c)) /\
  subscriptionByWSSubID (subscribe ps sm um cm ty c).1 = subscriptionByWSSubID c.
Proof.
  unfold subscribe, subscribe_request, subscribe_conf, newClientRequest, Int63.
  set (conf := if decide (cm = "") then _ else _).
  simpl. set (r := Build_clientRequest _ _ _ _).
  destruct (encode r) as [e|d]; simpl; [by split; [left |] |].
  destruct (WriteMessage d _) as [k [e|]]; simpl; by split; [right |].
Qed.



(** ** The reader never waits on a channel *)

(** X18. From a well-formed client the reader loop, whatever it reads,
    returns, panics, or waits for the next read: it never waits on a
    Subscription's pipe or error slot, neither while handling a frame nor
    while fanning out a read error. *)
Theorem X18_reader_waits_only_for_reads (inbound : list read) c :
  wf c ->
  (exists c', receiveMessages inbound c = Done c') \/
  receiveMessages inbound c = Panic \/
  receiveMessages inbound c = Blocked WaitRead.
Proof.
  revert c. induction inbound as [|[m|e] rest IH]; intros c Hwf; simpl.
  - by right; right.
  - destruct (handleMessage m c) as [c1| |w] eqn:Hm; simpl.
    + apply IH. eapply handleMessage_wf; eauto.
    + by right; left.
    + exfalso. unfold handleMessage in Hm. destruct (gj_id m) as [i|].
      * unfold handleNewSubscriptionMessage in Hm.
        destruct (subscriptionByRequestID c !! uint64 i) as [q|]; [| done].
        by destruct (heap c !! q).
      * by eapply handleSubscriptionMessage_never_waits.
  - left.
    destruct (closeAllSubscription_in_spec _ e c Hwf (reflexivity _))
      as (c' & Hrun & _). by exists c'.
Qed.

(** X19. [subscribe], whether it succeeds or fails, leaves every
    existing Subscription object and the subscription-id index as they
    were, and changes no entry of the request-id index other than the one
    of the request id it drew. *)
Theorem X19_subscribe_leaves_others ps sm um cm ty c :
  (forall p s, heap c !! p = Some s ->
     heap (subscribe ps sm um cm ty c).1 !! p = Some s) /\
  subscriptionByWSSubID (subscribe ps sm um cm ty c).1
    = subscriptionByWSSubID c /\
  (forall k, k <> ID (subscribe_request ps sm cm c) ->
     subscriptionByRequestID (subscribe ps sm um cm ty c).1 !! k
     = subscriptionByRequestID c !! k).
Proof.
  destruct (subscribe_effect ps sm um cm ty c)
    as ([[Hh Hr] | [Hh Hr]] & Hsub); rewrite Hh, Hr, Hsub.
  - done.
  - split; [| split; [done |]].
    + intros p s Hp. by apply lookup_app_l_Some.
    + intros k Hk. by rewrite lookup_insert_ne.
Qed.

End Further.

(** * Concrete runs *)

Section Concrete.
Local Existing Instance text_codec.

Lemma wf_client1 : wf client1.
Proof. apply subscribe_wf, wf_Dial. Qed.

Lemma wf_client_with_pipe n : (n <= 200)%nat -> wf (client_with_pipe n).
Proof.
  intros Hn. split; simpl.
  - intros k p [<- <-]%lookup_singleton_Some.
    eexists. split; [reflexivity | done].
  - intros k p [<- <-]%lookup_singleton_Some. eauto.
  - intros [|p] s Hp; simpl in Hp; [| done].
    injection Hp as <-. simpl. unfold len; simpl.
    rewrite length_replicate. repeat split; lia.
Qed.

Example client1_registry :
  subscriptionByRequestID client1 !! 5 = Some 0%nat /\
  subscriptionByWSSubID client1 = ∅ /\
  written (conn client1) = ["programSubscribe"].
Proof. vm_compute. done. Qed.

Lemma client1_acked_eq : handleMessage (ack_frame 5 77) client1 = Done client1_acked.
Proof. vm_compute. reflexivity. Qed.

Lemma client1_failed_eq :
  closeAllSubscription (ErrExternal "EOF") client1 = Done client1_failed.
Proof. vm_compute. reflexivity. Qed.

Lemma wf_client1_failed : wf client1_failed.
Proof.
  eapply closeAllSubscription_wf; [apply wf_client1 | apply client1_failed_eq].
Qed.

Lemma client1_drained_eq :
  Recv 0%nat PickErr client1_failed
  = Done (client1_drained, (None, Some (ErrExternal "EOF"))).
Proof. vm_compute. reflexivity. Qed.

(** C1, at a full pipe. *)
Lemma C1_backpressure_witness :
  wf (client_with_pipe 200) /\
  (forall w, handleSubscriptionMessage 77 (notification_frame 77 "y")
               (client_with_pipe 200) <> Blocked w) /\
  exists c',
    handleSubscriptionMessage 77 (notification_frame 77 "y")
      (client_with_pipe 200) = Done c' /\
    subscriptionByRequestID c' !! 5 = None.
Proof.
  assert (Hwf : wf (client_with_pipe 200)) by (apply wf_client_with_pipe; lia).
  split; [exact Hwf |].
  destruct (C1_backpressure (H := text_codec) 77 (notification_frame 77 "y")
              (client_with_pipe 200) 0%nat
              {| req := {| Version := "2.0"; Method := "programSubscribe";
                           Params := []; ID := 5 |};
                 subID := 77;
                 stream := make_chan (replicate 200 (Some "x" : @result text_codec)) 200;
                 err := make_chan [] 1;
                 reflectType := tt;
                 unsubscriptionMethod := "" |} "y" Hwf
              eq_refl eq_refl eq_refl eq_refl) as (Hfull & Hnever & _).
  split; [exact Hnever |].
  destruct Hfull as (c' & Hrun & _ & Hgone & _).
  { unfold len; simpl. lia. }
  exists c'. split; [exact Hrun | exact Hgone].
Defined.

(** C9, two frames for subscription 77 behind one pending result. *)
Lemma C9_fifo_per_subscription_witness :
  exists c',
    handleMessages [notification_frame 77 "a"; notification_frame 77 "b"]
      (client_with_pipe 1) = Done c' /\
    RecvN 0%nat [PickErr; PickErr; PickStream] c'
    = [(Some "x", None); (Some "a", None); (Some "b", None)].
Proof.
  assert (Hwf : wf (client_with_pipe 1)) by (apply wf_client_with_pipe; lia).
  destruct (C9_fifo_per_subscription (H := text_codec) 77 0%nat
              [notification_frame 77 "a"; notification_frame 77 "b"]
              ["a"; "b"] (client_with_pipe 1)
              {| req := {| Version := "2.0"; Method := "programSubscribe";
                           Params := []; ID := 5 |};
                 subID := 77;
                 stream := make_chan [Some "x" : @result text_codec] 200;
                 err := make_chan [] 1;
                 reflectType := tt;
                 unsubscriptionMethod := "" |} Hwf
              eq_refl eq_refl eq_refl eq_refl)
    as (c' & Hrun & _ & _ & _ & Hrecv).
  { repeat constructor. }
  { simpl. lia. }
  exists c'. split; [exact Hrun |].
  apply (Hrecv [PickErr; PickErr; PickStream]). simpl. lia.
Defined.

(** C4, a read error with one live Subscription. *)
Lemma C4_read_error_fan_out_witness :
  exists c2,
    receiveMessages [ReadErr (ErrExternal "EOF")] client1 = Done c2 /\
    subscriptionByRequestID c2 = ∅ /\
    subscriptionByWSSubID c2 = ∅ /\
    (None, Some (ErrExternal "EOF")) ∈ RecvN 0%nat [PickStream] c2.
Proof.
  destruct (C4_read_error_fan_out (H := text_codec) [] (ErrExternal "EOF") [] client1 client1
              wf_client1 eq_refl) as (c2 & Hrun & Hr & Hs & Hall).
  exists c2. split; [exact Hrun |]. split; [exact Hr |]. split; [exact Hs |].
  destruct (Hall 5 0%nat) as (s & Hs0 & _ & Hrecv); [by vm_compute |].
  apply Hrecv.
  assert (s = @newSubscription text_codec
                {| Version := "2.0"; Method := "programSubscribe";
                   Params := [PString "ProgramX";
                              PMap {[ "encoding" := "jsonParsed" ]}];
                   ID := 5 |} tt) as ->.
  { vm_compute in Hs0. injection Hs0 as <-. reflexivity. }
  simpl. unfold len; simpl. lia.
Defined.

(** C8, on the client with one live Subscription. *)
Lemma C8_unsubscribe_twice_witness :
  exists c1, Unsubscribe 0%nat client1 = Done c1 /\ Unsubscribe 0%nat c1 = Done c1.
Proof.
  destruct (C8_unsubscribe_twice (H := text_codec) 0%nat client1 wf_client1)
    as (c1 & H1 & H2 & _).
  { vm_compute. eauto. }
  exists c1. split; [exact H1 | exact H2].
Defined.

(** C10, on the client with one live Subscription. *)
Lemma C10_unsubscribe_nil_error_witness :
  exists c1 c2,
    Unsubscribe 0%nat client1 = Done c1 /\
    Recv 0%nat PickStream c1 = Done (c2, (None, None)).
Proof.
  destruct (C10_unsubscribe_nil_error (H := text_codec) 0%nat client1
              (@newSubscription text_codec
                 {| Version := "2.0"; Method := "programSubscribe";
                    Params := [PString "ProgramX";
                               PMap {[ "encoding" := "jsonParsed" ]}];
                    ID := 5 |} tt)
              wf_client1) as (c1 & Hrun & _ & Hrecv & _).
  { vm_compute. reflexivity. }
  { vm_compute. reflexivity. }
  destruct (Hrecv PickStream) as [c2 Hc2]; [by right |].
  exists c1, c2. split; [exact Hrun | exact Hc2].
Defined.

(** C5: after the read error has been returned once, [Recv] does not
    return it again. *)
Lemma C5_counterexample : ~ spec_error_sticky client1_failed 0%nat.
Proof.
  intros Hsticky.
  destruct (Hsticky PickErr client1_drained None (ErrExternal "EOF")
              client1_drained_eq PickErr) as [c2 Hc2].
  vm_compute in Hc2. discriminate Hc2.
Qed.

Lemma C5_error_returned_once_witness :
  exists s1,
    heap client1_drained !! 0%nat = Some s1 /\
    buf (err s1) = [] /\
    Recv 0%nat PickErr client1_drained = Blocked WaitRecv.
Proof.
  destruct (C5_error_returned_once (H := text_codec) 0%nat PickErr client1_failed client1_drained
              None (ErrExternal "EOF") wf_client1_failed client1_drained_eq)
    as (_ & s1 & Hs1 & Hempty & Hblock & _).
  exists s1. split; [exact Hs1 |]. split; [exact Hempty |].
  apply Hblock.
  vm_compute in Hs1. injection Hs1 as <-. reflexivity.
Defined.

(** C3: after its acknowledgement the Subscription is in both indices. *)
Lemma C3_counterexample : ~ spec_indices_exclusive client0.
Proof.
  intros Hexcl.
  apply (Hexcl [@CallSubscribe text_codec [PString "ProgramX"] "programSubscribe"
                  "programUnsubscribe" "" tt;
                CallHandleMessage (ack_frame 5 77)] client1_acked 0%nat).
  - vm_compute. reflexivity.
  - split; [exists 5 | exists 77]; vm_compute; reflexivity.
Qed.

Lemma C3_registry_invariant_witness :
  run [@CallSubscribe text_codec [PString "ProgramX"] "programSubscribe"
         "programUnsubscribe" "" tt] client0 = Done client1 /\
  exists c',
    handleNewSubscriptionMessage 5 77 client1 = Done c' /\
    subscriptionByRequestID c' !! 5 = Some 0%nat /\
    subscriptionByWSSubID c' !! 77 = Some 0%nat.
Proof.
  assert (Hrun : run [@CallSubscribe text_codec [PString "ProgramX"] "programSubscribe"
                        "programUnsubscribe" "" tt] client0 = Done client1)
    by reflexivity.
  split; [exact Hrun |].
  destruct (C3_registry_invariant (H := text_codec) "ws://localhost" (fun n => 5 + Z.of_nat n)
              _ client1 Hrun) as (_ & _ & Hack & _).
  destruct (Hack 5 77 0%nat) as (c' & Hc' & Hr & Hs & _); [by vm_compute |].
  exists c'. split; [exact Hc' |]. split; [exact Hr | exact Hs].
Defined.

(** C2: the acknowledgement [{"result":77,"id":5}] reaches a client that
    tracks no request 5; the handler dereferences the nil pointer the map
    lookup yields. *)
Theorem C2_unknown_acknowledgement_panics :
  subscriptionByRequestID client0 !! 5 = None /\
  handleMessage (ack_frame 5 77) client0 = Panic /\
  receiveMessages [ReadMsg (ack_frame 5 77)] client0 = Panic.
Proof. vm_compute. done. Qed.

(** C6: [ProgramSubscribe] on a connection whose writes fail returns the
    write error and no handle, and the request-id index, empty before the
    call, holds the new Subscription after it. *)
Theorem C6_write_failure_leaves_entry :
  subscriptionByRequestID client0_down = ∅ /\
  (ProgramSubscribe "ProgramX" "" tt client0_down).2
    = inr (Wrapf "unable to write request: %w" (ErrExternal "broken pipe")) /\
  subscriptionByRequestID (ProgramSubscribe "ProgramX" "" tt client0_down).1 !! 5
    = Some 0%nat /\
  length (heap (ProgramSubscribe "ProgramX" "" tt client0_down).1) = 1%nat.
Proof. vm_compute. done. Qed.

(** C7: the server answers the subscribe request 5 with an error frame
    carrying that id.  The frame is handled as an acknowledgement with
    subscription id 0: the error slot stays empty, [Recv] does not return,
    and the Subscription is entered in the subscription-id index under 0.
    An error frame without an id is then routed to that Subscription and
    closes it. *)
Theorem C7_error_frame_handled_as_acknowledgement :
  handleMessage (error_frame (Some 5) "{code:-32602,message:Invalid params}")
    client1 = Done client1_rejected /\
  subscriptionByRequestID client1_rejected !! 5 = Some 0%nat /\
  subscriptionByWSSubID client1_rejected !! 0 = Some 0%nat /\
  (buf ∘ err) <$> heap client1_rejected !! 0%nat = Some [] /\
  Recv 0%nat PickErr client1_rejected = Blocked WaitRecv /\
  exists c',
    handleMessage (error_frame None "{code:-32000,message:oops}")
      client1_rejected = Done c' /\
    (buf ∘ err) <$> heap c' !! 0%nat
      = Some [Some (Wrapf "unable to decode client response: %w"
                      (Json2Error E_SERVER "server error"))] /\
    subscriptionByRequestID c' = ∅.
Proof.
  split; [by vm_compute |]. split; [by vm_compute |]. split; [by vm_compute |].
  split; [by vm_compute |]. split; [by vm_compute |].
  eexists. split; [vm_compute; reflexivity |].
  split; [by vm_compute |]. by vm_compute.
Qed.

Lemma wf_client1_acked : wf client1_acked.
Proof.
  eapply handleMessage_wf; [apply wf_client1 | apply client1_acked_eq].
Qed.

Lemma wf_client2 : wf client2.
Proof. apply subscribe_wf, wf_client1. Qed.

Lemma client1_run :
  run [@CallSubscribe text_codec [PString "ProgramX"] "programSubscribe"
         "programUnsubscribe" "" tt] client0 = Done client1.
Proof. reflexivity. Qed.

(** X2, on the acknowledged Subscription 77. *)
Lemma X2_missing_result_panics_witness :
  receiveMessages [ReadMsg frame_without_result; ReadErr (ErrExternal "EOF")]
    client1_acked = Panic.
Proof.
  apply (X2_missing_result_panics (H := text_codec) 77 frame_without_result
           client1_acked 0%nat sub0_acked
           {| resp_Params := Some {| Result := None; Subscription_field := 77 |};
              resp_Error := None |}
           {| Result := None; Subscription_field := 77 |});
    by vm_compute.
Defined.

(** X3, two notifications for ids nobody holds. *)
Lemma X3_unroutable_frames_dropped_witness :
  handleMessages [notification_frame 1 "a"; notification_frame 2 "b"] client1
  = Done client1.
Proof.
  apply (X3_unroutable_frames_dropped (H := text_codec)).
  repeat constructor; by vm_compute.
Defined.


Lemma client1_closed_eq : Unsubscribe 0%nat client1 = Done client1_closed.
Proof. vm_compute. reflexivity. Qed.

(** X5, the same close on a working and on a broken connection. *)
Lemma X5_close_independent_of_link_witness :
  exists c2,
    closeSubscription 5 None
      (set_conn client1
         {| written := []; broken := Some (ErrExternal "broken pipe") |})
    = Done c2 /\
    heap c2 = heap client1_closed /\
    subscriptionByRequestID c2 = subscriptionByRequestID client1_closed /\
    written (conn c2) = [].
Proof.
  destruct (X5_close_independent_of_link (H := text_codec) 5 None client1
              {| written := []; broken := Some (ErrExternal "broken pipe") |}
              client1_closed)
    as (c2 & Hrun & Hh & Hr & _ & Hk).
  { vm_compute. reflexivity. }
  exists c2. split; [exact Hrun |]. split; [exact Hh |]. split; [exact Hr |].
  rewrite Hk; [reflexivity | by eexists].
Defined.

(** X6, closing the Subscription of [client1]. *)
Lemma X6_unsubscribe_request_has_no_method_witness :
  exists c',
    closeSubscription 5 None client1 = Done c' /\
    written (conn c') = ["programSubscribe"; ""].
Proof.
  destruct (X6_unsubscribe_request_has_no_method (H := text_codec)
              "ws://localhost" (fun n => 5 + Z.of_nat n) _ client1
              5 0%nat sub0 None "" client1_run)
    as (_ & c' & Hrun & Hw); try (by vm_compute).
  exists c'. split; [exact Hrun | exact Hw].
Defined.

(** X7, a subscribe with a commitment on the fresh client. *)
Lemma X7_subscribe_registers_witness :
  (@subscribe text_codec [PString "ProgramX"] "programSubscribe" "programUnsubscribe"
     "finalized" tt client0).2 = inl 0%nat /\
  subscribe_conf "finalized" !! "commitment" = Some "finalized".
Proof.
  destruct (X7_subscribe_registers (H := text_codec) [PString "ProgramX"]
              "programSubscribe" "programUnsubscribe" "finalized" tt client0
              "programSubscribe" eq_refl eq_refl)
    as (Hres & _ & _ & _ & _ & _ & _ & _ & _ & Hc & _).
  split; [exact Hres | exact Hc].
Defined.

(** X8, a random source that draws 5 twice. *)
Lemma X8_request_id_collision_witness :
  exists c' c'',
    subscribe [PString "ProgramZ"] "programSubscribe" "programUnsubscribe"
      "" tt client_same_id = (c', inl 1%nat) /\
    Unsubscribe 0%nat c' = Done c'' /\
    err_slot_is 1%nat None c'' /\
    heap c'' !! 0%nat = heap client_same_id !! 0%nat.
Proof.
  assert (Hwf : wf client_same_id) by apply subscribe_wf, wf_Dial.
  destruct (X8_request_id_collision (H := text_codec) [PString "ProgramZ"]
              "programSubscribe" "programUnsubscribe" "" tt client_same_id
              (@subscribe text_codec [PString "ProgramZ"] "programSubscribe"
                 "programUnsubscribe" "" tt client_same_id).1
              0%nat 1%nat Hwf)
    as (_ & _ & _ & c'' & Hun & Hslot & Hold).
  { vm_compute. reflexivity. }
  { vm_compute. reflexivity. }
  eexists _, c''. split; [vm_compute; reflexivity |].
  split; [exact Hun |]. split; [exact Hslot | exact Hold].
Defined.

(** X10, the two orders of a two-entry index. *)
Lemma X10_range_order_irrelevant_witness :
  exists c',
    closeAllSubscription_in [(5, 0%nat); (6, 1%nat)] (ErrExternal "EOF") client2
    = Done c' /\
    closeAllSubscription_in [(6, 1%nat); (5, 0%nat)] (ErrExternal "EOF") client2
    = Done c'.
Proof.
  assert (Hlist : map_to_list (subscriptionByRequestID client2)
                  ≡ₚ [(5, 0%nat); (6, 1%nat)]).
  { apply NoDup_Permutation.
    - apply NoDup_map_to_list.
    - apply NoDup_cons. split; [| apply NoDup_singleton].
      intros Hin. apply list_elem_of_singleton in Hin. discriminate Hin.
    - intros [k q]. rewrite elem_of_map_to_list.
      change (subscriptionByRequestID client2)
        with (<[6 := 1%nat]> (<[5 := 0%nat]> (∅ : gmap Z ptr))).
      rewrite !lookup_insert_Some, lookup_empty.
      rewrite !elem_of_cons, elem_of_nil. split.
      + intros [[<- <-] | [_ [[<- <-] | [_ ?]]]];
          [right; left | left | done]; reflexivity.
      + intros [[= -> ->] | [[= -> ->] | []]];
          [right; split; [done | left; done] | left; done]. }
  apply (X10_range_order_irrelevant (H := text_codec) _ _ _ client2 wf_client2).
  - by rewrite Hlist.
  - rewrite Hlist. apply perm_swap.
Defined.

(** X11, a notification for 77 after the close. *)
Lemma X11_late_notification_dropped_witness :
  exists c1,
    closeSubscription 5 None client1_acked = Done c1 /\
    handleSubscriptionMessage 77 (notification_frame 77 "late") c1 = Done c1.
Proof.
  apply (X11_late_notification_dropped (H := text_codec) 77
           (notification_frame 77 "late") client1_acked 0%nat sub0_acked None
           wf_client1_acked); by vm_compute.
Defined.

(** X12, the acknowledgements of requests 5 and 6. *)
Lemma X12_acknowledgements_commute_witness :
  exists c',
    (c1 <-- handleNewSubscriptionMessage 5 77 client2 ;;
     handleNewSubscriptionMessage 6 78 c1) = Done c' /\
    (c2 <-- handleNewSubscriptionMessage 6 78 client2 ;;
     handleNewSubscriptionMessage 5 77 c2) = Done c'.
Proof.
  apply (X12_acknowledgements_commute (H := text_codec) 5 6 77 78 client2
           wf_client2); try done; by vm_compute; eexists.
Defined.

(** X13, subscribe, acknowledgement 77, one notification. *)
Lemma X13_subscribe_ack_notify_recv_witness :
  exists c3 c4,
    handleMessages [ack_frame 5 77; notification_frame 77 "hello"] client1
    = Done c3 /\
    Recv 0%nat PickErr c3 = Done (c4, (Some "hello", None)).
Proof.
  destruct (X13_subscribe_ack_notify_recv (H := text_codec)
              [PString "ProgramX"] "programSubscribe" "programUnsubscribe" ""
              tt client0 client1 0%nat (ack_frame 5 77)
              (notification_frame 77 "hello") 5 "hello" PickErr)
    as (c3 & c4 & s3 & Hrun & _ & _ & Hrecv); try (by vm_compute).
  exists c3, c4. split; [exact Hrun | exact Hrecv].
Defined.

(** X14, the object of [client1]. *)
Lemma X14_channel_bounds_witness :
  cap (stream sub0) = 200%nat /\ (length (buf (stream sub0)) <= 200)%nat /\
  cap (err sub0) = 1%nat /\ (length (buf (err sub0)) <= 1)%nat.
Proof.
  apply (X14_channel_bounds (H := text_codec) "ws://localhost"
           (fun n => 5 + Z.of_nat n) _ client1 0%nat sub0 client1_run).
  by vm_compute.
Defined.


(** X16, request 5 acknowledged as 77 and then again as 78. *)
Lemma X16_reacknowledgement_leaves_stale_entry_witness :
  exists c1 c2,
    handleNewSubscriptionMessage 5 78 client1_acked = Done c1 /\
    closeSubscription 5 None c1 = Done c2 /\
    subscriptionByRequestID c2 !! 5 = None /\
    subscriptionByWSSubID c2 !! 77 = Some 0%nat.
Proof.
  destruct (X16_reacknowledgement_leaves_stale_entry (H := text_codec)
              5 77 78 client1_acked 0%nat None wf_client1_acked)
    as (c1 & c2 & Hack & _ & _ & Hclose & _ & Hr & _ & Hstale);
    try (by vm_compute).
  exists c1, c2. split; [exact Hack |]. split; [exact Hclose |].
  split; [exact Hr | exact Hstale].
Defined.

(** X17, with a codec that rejects every request. *)
Lemma X17_encode_failure_leaves_client_witness :
  @subscribe rejecting_codec [PString "ProgramX"] "programSubscribe"
    "programUnsubscribe" "" tt (@Dial rejecting_codec "ws://localhost" (fun _ => 5))
  = (@set_rand_pos rejecting_codec
       (@Dial rejecting_codec "ws://localhost" (fun _ => 5)) 1,
     inr (Wrapf "subscribe: unable to encode subsciption request: %w"
            (Wrapf "encode request: json marshall: %w"
               (ErrExternal "json: unsupported type")))).
Proof.
  apply (X17_encode_failure_leaves_client (H := rejecting_codec)
           [PString "ProgramX"] "programSubscribe" "programUnsubscribe" "" tt
           (@Dial rejecting_codec "ws://localhost" (fun _ => 5))
           (ErrExternal "json: unsupported type")).
  reflexivity.
Defined.

(** X18, two frames and then a read error on [client1]. *)
Lemma X18_reader_waits_only_for_reads_witness :
  (exists c',
     receiveMessages [ReadMsg (ack_frame 5 77);
                      ReadMsg (notification_frame 77 "a");
                      ReadErr (ErrExternal "EOF")] client1 = Done c') \/
  receiveMessages [ReadMsg (ack_frame 5 77);
                   ReadMsg (notification_frame 77 "a");
                   ReadErr (ErrExternal "EOF")] client1 = Panic \/
  receiveMessages [ReadMsg (ack_frame 5 77);
                   ReadMsg (notification_frame 77 "a");
                   ReadErr (ErrExternal "EOF")] client1 = Blocked WaitRead.
Proof.
  apply (X18_reader_waits_only_for_reads (H := text_codec) _ client1 wf_client1).
Defined.

End Concrete.
